(** * FileKeeper: the connection protocol and the session state machines

    A shallow embedding of [server.py] ([FileServer.handle_client],
    [FileServer._get_user_dir]) and of [client.py] ([FileClient]), with
    the properties of the protocol proved about it.

    Conventions of the embedding.
    - A Python [str] is a [string]; its characters are the code points
      0..255.  Text received from the socket is taken after
      [data.decode()] has succeeded.
    - File contents ([bytes]) are [list byte].
    - The library functions the program calls ([str.strip], [str.split],
      [str.upper], [base64.b64encode], [base64.b64decode], [json.dumps],
      [os.path.join], [os.path.exists], [os.makedirs], [open],
      [os.remove], [os.listdir]) are modelled after CPython on a POSIX
      system, each in a module named after its Python module.
    - Exceptions are values of type [exn]; a call that may raise returns a
      [result]. *)

From Stdlib Require Import NArith Ascii.
From Stdlib.Strings Require Import Byte.
From stdpp Require Import gmap strings list pretty.


(** ** Results and exceptions *)

Inductive errno := ENOENT | EEXIST | ENOTDIR | EISDIR.

(** The exceptions the program can meet.  [OSError ENOENT _] is Python's
    [FileNotFoundError]. *)
Inductive exn :=
  | BinasciiError (msg : string)
  | ValueError (msg : string)
  | OSError (e : errno) (path : string).

Inductive result (A : Type) :=
  | Ok (a : A)
  | Raise (e : exn).
Arguments Ok {A} a.
Arguments Raise {A} e.

Definition strerror (e : errno) : string :=
  match e with
  | ENOENT => "[Errno 2] No such file or directory"
  | EEXIST => "[Errno 17] File exists"
  | ENOTDIR => "[Errno 20] Not a directory"
  | EISDIR => "[Errno 21] Is a directory"
  end.

(** [str(e)].  For an [OSError] Python prints [repr] of the path, which is
    the path between single quotes when it holds printable characters
    other than quotes and backslashes. *)
Definition str_exn (e : exn) : string :=
  match e with
  | BinasciiError msg => msg
  | ValueError msg => msg
  | OSError e path => strerror e +:+ ": '" +:+ path +:+ "'"
  end.

(** ** Python's string methods *)

Module Str.

Definition code (c : ascii) : N := N_of_ascii c.

(** [str.isspace] on the code points below 256. *)
Definition isspace (c : ascii) : bool :=
  let n := code c in
  ((9 <=? n) && (n <=? 13) || (28 <=? n) && (n <=? 32)
   || (n =? 133) || (n =? 160))%N.

(** [str.upper] on one character.  Three characters below 256 have an
    upper-case form that is no character below 256 (181 and 255 go above
    255, 223 becomes [SS]); they are left as they are.  No verb of the
    protocol holds one of these images, so the dispatch is the same. *)
Definition upper_char (c : ascii) : ascii :=
  let n := code c in
  if ((97 <=? n) && (n <=? 122)
      || (224 <=? n) && (n <=? 254) && negb (n =? 247))%N
  then ascii_of_N (n - 32) else c.

Fixpoint upper (s : string) : string :=
  match s with
  | EmptyString => EmptyString
  | String c s' => String (upper_char c) (upper s')
  end.

Fixpoint lstrip (s : string) : string :=
  match s with
  | EmptyString => EmptyString
  | String c s' => if isspace c then lstrip s' else s
  end.

Fixpoint rstrip (s : string) : string :=
  match s with
  | EmptyString => EmptyString
  | String c s' =>
      match rstrip s' with
      | EmptyString => if isspace c then EmptyString else String c EmptyString
      | r => String c r
      end
  end.

Definition strip (s : string) : string := rstrip (lstrip s).

(** The longest prefix without whitespace, and what follows it. *)
Fixpoint span_word (s : string) : string * string :=
  match s with
  | EmptyString => (EmptyString, EmptyString)
  | String c s' =>
      if isspace c then (EmptyString, s)
      else let '(w, r) := span_word s' in (String c w, r)
  end.

(** [s.split(maxsplit=n)]: split at runs of whitespace, at most [n]
    times; what is left after the [n]-th split is the last item, its
    leading whitespace removed. *)
Fixpoint split (maxsplit : nat) (s : string) : list string :=
  match lstrip s with
  | EmptyString => []
  | String c s' =>
      match maxsplit with
      | O => [String c s']
      | S m => let '(w, r) := span_word (String c s') in w :: split m r
      end
  end.

Fixpoint startswith (p s : string) : bool :=
  match p, s with
  | EmptyString, _ => true
  | String a p', String b s' => if decide (a = b) then startswith p' s' else false
  | String _ _, EmptyString => false
  end.

Fixpoint contains (c : ascii) (s : string) : bool :=
  match s with
  | EmptyString => false
  | String a s' => if decide (a = c) then true else contains c s'
  end.

(** [s.split(sep)] for a one-character separator: never empty. *)
Fixpoint split_on (sep : ascii) (s : string) : list string :=
  match s with
  | EmptyString => [EmptyString]
  | String c s' =>
      if decide (c = sep) then EmptyString :: split_on sep s'
      else match split_on sep s' with
           | w :: ws => String c w :: ws
           | [] => [String c EmptyString]
           end
  end.

End Str.

(** ** The payload codec: [base64.b64encode] and [base64.b64decode] *)

Module Base64.

Definition alphabet : string :=
  "ABCDEFGHIJKLMNOPQRSTUVWXYZabcdefghijklmnopqrstuvwxyz0123456789+/".

Definition BASE64_PAD : ascii := "="%char.

(** [table_b2a_base64]: the character of a 6-bit value. *)
Definition table_b2a (n : N) : ascii :=
  default BASE64_PAD (String.get (N.to_nat n) alphabet).

(** [table_a2b_base64]: the 6-bit value of a character of the alphabet,
    64 for every other character. *)
Definition table_a2b (c : ascii) : N :=
  let n := N_of_ascii c in
  (if (65 <=? n) && (n <=? 90) then n - 65
   else if (97 <=? n) && (n <=? 122) then n - 71
   else if (48 <=? n) && (n <=? 57) then n + 4
   else if n =? 43 then 62
   else if n =? 47 then 63
   else 64)%N.

(** The value stored into an [unsigned char]. *)
Definition to_uchar (n : N) : byte :=
  default x00 (Byte.of_N (N.land n 255)).

(** [binascii.b2a_base64(data, newline=False)]: three bytes give four
    characters; one or two bytes left over give two or three characters
    and padding. *)
Fixpoint b64encode (data : list byte) : string :=
  match data with
  | [] => EmptyString
  | [a] =>
      let a := Byte.to_N a in
      String (table_b2a (N.shiftr a 2))
        (String (table_b2a (N.shiftl (N.land a 3) 4))
           (String BASE64_PAD (String BASE64_PAD EmptyString)))
  | [a; b] =>
      let a := Byte.to_N a in
      let b := Byte.to_N b in
      String (table_b2a (N.shiftr a 2))
        (String (table_b2a (N.lor (N.shiftl (N.land a 3) 4) (N.shiftr b 4)))
           (String (table_b2a (N.shiftl (N.land b 15) 2))
              (String BASE64_PAD EmptyString)))
  | a :: b :: c :: rest =>
      let a := Byte.to_N a in
      let b := Byte.to_N b in
      let c := Byte.to_N c in
      String (table_b2a (N.shiftr a 2))
        (String (table_b2a (N.lor (N.shiftl (N.land a 3) 4) (N.shiftr b 4)))
           (String (table_b2a (N.lor (N.shiftl (N.land b 15) 2) (N.shiftr c 6)))
              (String (table_b2a (N.land c 63)) (b64encode rest))))
  end.

(** [binascii.a2b_base64(data, strict_mode=False)], the loop over the
    characters.  [quad_pos] counts the characters of the current group
    of four, [leftchar] holds the bits not yet written, [pads] the
    padding characters seen since the last character of the alphabet,
    [out] the bytes written so far, last first.  A character outside the
    alphabet is skipped; a padding sequence that completes the group
    ends the decoding, whatever follows it. *)
Fixpoint a2b_loop (s : string) (quad_pos : nat) (leftchar : N) (pads : nat)
    (out : list byte) : result (list byte) :=
  match s with
  | EmptyString =>
      match quad_pos with
      | 0 => Ok (reverse out)
      | 1 =>
          Raise (BinasciiError
            ("Invalid base64-encoded string: number of data characters ("
             +:+ pretty (N.of_nat (length out) / 3 * 4 + 1)%N
             +:+ ") cannot be 1 more than a multiple of 4"))
      | _ => Raise (BinasciiError "Incorrect padding")
      end
  | String ch rest =>
      if decide (ch = BASE64_PAD) then
        if decide (2 ≤ quad_pos) then
          if decide (4 ≤ quad_pos + S pads) then Ok (reverse out)
          else a2b_loop rest quad_pos leftchar (S pads) out
        else a2b_loop rest quad_pos leftchar pads out
      else
        let this_ch := table_a2b ch in
        if (64 <=? this_ch)%N then a2b_loop rest quad_pos leftchar pads out
        else
          match quad_pos with
          | 0 => a2b_loop rest 1 this_ch 0 out
          | 1 =>
              a2b_loop rest 2 (N.land this_ch 15) 0
                (to_uchar (N.lor (N.shiftl leftchar 2) (N.shiftr this_ch 4)) :: out)
          | 2 =>
              a2b_loop rest 3 (N.land this_ch 3) 0
                (to_uchar (N.lor (N.shiftl leftchar 4) (N.shiftr this_ch 2)) :: out)
          | _ =>
              a2b_loop rest 0 0 0
                (to_uchar (N.lor (N.shiftl leftchar 6) this_ch) :: out)
          end
  end.

(** The characters of the alphabet. *)
Definition in_alphabet (c : ascii) : bool := (table_a2b c <? 64)%N.


Fixpoint is_ascii (s : string) : bool :=
  match s with
  | EmptyString => true
  | String c s' => (N_of_ascii c <? 128)%N && is_ascii s'
  end.

(** [base64.b64decode(s)] for a [str] argument: the text is first
    encoded as ASCII, then decoded without validation. *)
Definition b64decode (s : string) : result (list byte) :=
  if is_ascii s then a2b_loop s 0 0 0 []
  else Raise (ValueError "string argument should contain only ASCII characters").

End Base64.

(** ** [json.dumps] of a list of strings *)

Module Json.

Definition quote : ascii := "034"%char.
Definition backslash : ascii := "092"%char.

Definition hex_digit (n : N) : ascii :=
  default "0"%char (String.get (N.to_nat n) "0123456789abcdef").

(** One character of [py_encode_basestring_ascii]: everything outside
    the printable ASCII range is escaped. *)
Definition escape_char (c : ascii) : string :=
  let n := N_of_ascii c in
  if decide (c = quote) then String backslash (String quote EmptyString)
  else if decide (c = backslash) then String backslash (String backslash EmptyString)
  else if (n =? 8)%N then String backslash "b"
  else if (n =? 12)%N then String backslash "f"
  else if (n =? 10)%N then String backslash "n"
  else if (n =? 13)%N then String backslash "r"
  else if (n =? 9)%N then String backslash "t"
  else if ((32 <=? n) && (n <=? 126))%N then String c EmptyString
  else String backslash
         ("u00" +:+ String (hex_digit (n / 16)) (String (hex_digit (n mod 16)) EmptyString)).

Fixpoint escape (s : string) : string :=
  match s with
  | EmptyString => EmptyString
  | String c s' => escape_char c +:+ escape s'
  end.

Definition encode_str (s : string) : string :=
  String quote (escape s +:+ String quote EmptyString).

Fixpoint join_items (items : list string) : string :=
  match items with
  | [] => EmptyString
  | [x] => encode_str x
  | x :: rest => encode_str x +:+ ", " +:+ join_items rest
  end.

Definition dumps (items : list string) : string :=
  "[" +:+ join_items items +:+ "]".

End Json.

(** ** The storage backend: a POSIX file tree *)

Inductive node :=
  | File (content : list byte)
  | Dir.

(** A file system without links.  A node is addressed by the components
    of its absolute path, the last component first; [[]] is the root.
    [cwd] is the working directory of the server process. *)
Record filesystem := FS {
  cwd : list string;
  nodes : gmap (list string) node
}.

Definition with_nodes (fs : filesystem) (m : gmap (list string) node) : filesystem :=
  FS (cwd fs) m.

Module Os.

Definition sep : ascii := "/"%char.

(** [path.endswith('/')]. *)
Fixpoint ends_with_sep (s : string) : bool :=
  match s with
  | EmptyString => false
  | String c EmptyString => bool_decide (c = sep)
  | String _ s' => ends_with_sep s'
  end.

(** [posixpath.join(a, b)]. *)
Definition path_join (a b : string) : string :=
  if Str.startswith "/" b then b
  else if bool_decide (a = EmptyString) || ends_with_sep a then a +:+ b
  else a +:+ "/" +:+ b.

Definition has_nul (path : string) : bool := Str.contains "000"%char path.

Definition components (path : string) : list string := Str.split_on sep path.

Definition start_of (fs : filesystem) (path : string) : list string :=
  if Str.startswith "/" path then [] else cwd fs.

(** Where one component leads from the directory [cur]. *)
Definition enter (cur : list string) (c : string) : list string :=
  if decide (c = EmptyString ∨ c = ".") then cur
  else if decide (c = "..") then tail cur
  else c :: cur.

(** Path resolution: every component is looked up in a directory. *)
Fixpoint walk (m : gmap (list string) node) (cur : list string)
    (comps : list string) : list string + errno :=
  match comps with
  | [] => inl cur
  | c :: rest =>
      match m !! cur with
      | Some Dir => walk m (enter cur c) rest
      | Some (File _) => inr ENOTDIR
      | None => inr ENOENT
      end
  end.

(** The node a path names, whether it exists or not. *)
Definition resolve (fs : filesystem) (path : string) : result (list string) :=
  if has_nul path then Raise (ValueError "embedded null byte")
  else if decide (path = EmptyString) then Raise (OSError ENOENT path)
  else match walk (nodes fs) (start_of fs path) (components path) with
       | inl p => Ok p
       | inr e => Raise (OSError e path)
       end.

(** [os.stat]. *)
Definition stat (fs : filesystem) (path : string) : result (list string * node) :=
  match resolve fs path with
  | Raise e => Raise e
  | Ok p =>
      match nodes fs !! p with
      | Some n => Ok (p, n)
      | None => Raise (OSError ENOENT path)
      end
  end.

(** [os.path.exists]: [os.stat] did not raise. *)
Definition path_exists (fs : filesystem) (path : string) : bool :=
  match stat fs path with
  | Ok _ => true
  | Raise _ => false
  end.

(** [open(path, "rb").read()]. *)
Definition read_file (fs : filesystem) (path : string) : result (list byte) :=
  match stat fs path with
  | Raise e => Raise e
  | Ok (_, File content) => Ok content
  | Ok (_, Dir) => Raise (OSError EISDIR path)
  end.

(** [open(path, "wb").write(content)]: the file is created or
    truncated. *)
Definition write_file (fs : filesystem) (path : string) (content : list byte)
    : result filesystem :=
  match resolve fs path with
  | Raise e => Raise e
  | Ok p =>
      match nodes fs !! p with
      | Some Dir => Raise (OSError EISDIR path)
      | _ => Ok (with_nodes fs (<[p := File content]> (nodes fs)))
      end
  end.

(** [os.remove]. *)
Definition remove (fs : filesystem) (path : string) : result filesystem :=
  match stat fs path with
  | Raise e => Raise e
  | Ok (p, File _) => Ok (with_nodes fs (delete p (nodes fs)))
  | Ok (_, Dir) => Raise (OSError EISDIR path)
  end.

(** The names of the entries of the directory [d]. *)
Definition entries (m : gmap (list string) node) (d : list string) : list string :=
  omap (λ kv, match kv.1 with
              | name :: d' => if decide (d' = d) then Some name else None
              | [] => None
              end) (map_to_list m).

(** [os.listdir]; the order of the names is not specified. *)
Definition listdir (fs : filesystem) (path : string) : result (list string) :=
  match stat fs path with
  | Raise e => Raise e
  | Ok (p, Dir) => Ok (entries (nodes fs) p)
  | Ok (_, File _) => Raise (OSError ENOTDIR path)
  end.

Definition all_empty (comps : list string) : bool :=
  forallb (λ c, bool_decide (c = EmptyString)) comps.

(** The creation loop of [os.makedirs]: the missing directories along
    the path are created one after the other, and the last component
    goes through [mkdir], which refuses a name that exists (unless the
    component is [.], which is not created at all). *)
Fixpoint mkdirs (m : gmap (list string) node) (cur : list string)
    (comps : list string) : gmap (list string) node * option exn :=
  match comps with
  | [] => (m, None)
  | c :: rest =>
      if has_nul c then (m, Some (ValueError "embedded null byte"))
      else
        match m !! cur with
        | Some Dir =>
            let nxt := enter cur c in
            if all_empty rest then
              if decide (c = ".") then (m, None)
              else match m !! nxt with
                   | Some _ => (m, Some (OSError EEXIST EmptyString))
                   | None => (<[nxt := Dir]> m, None)
                   end
            else match m !! nxt with
                 | Some _ => mkdirs m nxt rest
                 | None => mkdirs (<[nxt := Dir]> m) nxt rest
                 end
        | Some (File _) => (m, Some (OSError ENOTDIR EmptyString))
        | None => (m, Some (OSError ENOENT EmptyString))
        end
  end.

Definition with_path (path : string) (e : exn) : exn :=
  match e with
  | OSError n _ => OSError n path
  | _ => e
  end.

(** [os.makedirs(path)] with [exist_ok=False].  The directories created
    before a failure stay. *)
Definition makedirs (fs : filesystem) (path : string) : filesystem * option exn :=
  if decide (path = EmptyString) then (fs, Some (OSError ENOENT path))
  else if path_exists fs path then (fs, Some (OSError EEXIST path))
  else
    let '(m, r) := mkdirs (nodes fs) (start_of fs path) (components path) in
    (with_nodes fs m, with_path path <$> r).

End Os.

(** ** The server: [FileServer] *)

Record FileServer := {
  storage_dir : string;
  users : gmap string string
}.

(** What one round of the loop of [handle_client] does with the socket:
    it sends one response, sends nothing ([continue] on an empty
    command), or an exception leaves the loop and the connection is
    closed. *)
Inductive action :=
  | Send (response : string)
  | Nothing
  | Closed (e : exn).

Module Server.

(** [FileServer._get_user_dir]. *)
Definition _get_user_dir (srv : FileServer) (fs : filesystem) (username : string)
    : filesystem * result string :=
  let user_dir := Os.path_join (storage_dir srv) username in
  if negb (Os.path_exists fs user_dir) then
    match Os.makedirs fs user_dir with
    | (fs', None) => (fs', Ok user_dir)
    | (fs', Some e) => (fs', Raise e)
    end
  else (fs, Ok user_dir).

(** [parts[i]]; only used below the length checks. *)
Definition item (parts : list string) (i : nat) : string :=
  default EmptyString (parts !! i).

(** [command = data.decode().strip()] and
    [parts = command.split(maxsplit=2)]. *)
Definition parse (text : string) : list string :=
  Str.split 2 (Str.strip text).

(** [cmd = parts[0].upper()]. *)
Definition verb (text : string) : string :=
  Str.upper (item (parse text) 0).

Definition upload (srv : FileServer) (fs : filesystem) (user : string)
    (parts : list string) : filesystem * action :=
  if decide (length parts < 3) then (fs, Send "ERROR Invalid upload command")
  else
    let filename := item parts 1 in
    let file_data := item parts 2 in
    match Base64.b64decode file_data with
    | Raise e => (fs, Send ("ERROR Upload failed: " +:+ str_exn e))
    | Ok file_content =>
        match _get_user_dir srv fs user with
        | (fs1, Raise e) => (fs1, Send ("ERROR Upload failed: " +:+ str_exn e))
        | (fs1, Ok user_dir) =>
            let file_path := Os.path_join user_dir filename in
            match Os.write_file fs1 file_path file_content with
            | Raise e => (fs1, Send ("ERROR Upload failed: " +:+ str_exn e))
            | Ok fs2 => (fs2, Send "OK File uploaded")
            end
        end
    end.

Definition download (srv : FileServer) (fs : filesystem) (user : string)
    (parts : list string) : filesystem * action :=
  if decide (length parts ≠ 2) then (fs, Send "ERROR Invalid download command")
  else
    let filename := item parts 1 in
    match _get_user_dir srv fs user with
    | (fs1, Raise e) => (fs1, Closed e)
    | (fs1, Ok user_dir) =>
        let file_path := Os.path_join user_dir filename in
        match Os.read_file fs1 file_path with
        | Ok file_content =>
            (fs1, Send ("OK " +:+ Base64.b64encode file_content))
        | Raise (OSError ENOENT _) => (fs1, Send "ERROR File not found")
        | Raise e => (fs1, Send ("ERROR Download failed: " +:+ str_exn e))
        end
    end.

Definition delete (srv : FileServer) (fs : filesystem) (user : string)
    (parts : list string) : filesystem * action :=
  if decide (length parts ≠ 2) then (fs, Send "ERROR Invalid delete command")
  else
    let filename := item parts 1 in
    match _get_user_dir srv fs user with
    | (fs1, Raise e) => (fs1, Closed e)
    | (fs1, Ok user_dir) =>
        let file_path := Os.path_join user_dir filename in
        match Os.remove fs1 file_path with
        | Ok fs2 => (fs2, Send "OK File deleted")
        | Raise (OSError ENOENT _) => (fs1, Send "ERROR File not found")
        | Raise e => (fs1, Send ("ERROR Delete failed: " +:+ str_exn e))
        end
    end.

Definition list_files (srv : FileServer) (fs : filesystem) (user : string)
    : filesystem * action :=
  match _get_user_dir srv fs user with
  | (fs1, Raise e) => (fs1, Send ("ERROR List failed: " +:+ str_exn e))
  | (fs1, Ok user_dir) =>
      match Os.listdir fs1 user_dir with
      | Ok files => (fs1, Send ("OK " +:+ Json.dumps files))
      | Raise e => (fs1, Send ("ERROR List failed: " +:+ str_exn e))
      end
  end.

(** The [AUTH] branch; the result is the new [authenticated_user]. *)
Definition auth (srv : FileServer) (authenticated_user : option string)
    (parts : list string) : option string * action :=
  if decide (length parts ≠ 3) then
    (authenticated_user, Send "ERROR Invalid auth command")
  else
    let username := item parts 1 in
    let password := item parts 2 in
    match users srv !! username with
    | Some stored_password =>
        if decide (stored_password = password)
        then (Some username, Send "OK Authenticated")
        else (authenticated_user, Send "ERROR Invalid password")
    | None => (authenticated_user, Send "ERROR User not found")
    end.

(** The body of the loop of [handle_client] for one text received; the
    state is the file system and the connection's
    [authenticated_user]. *)
Definition handle_command (srv : FileServer) (fs : filesystem)
    (authenticated_user : option string) (text : string)
    : filesystem * option string * action :=
  let command := Str.strip text in
  if decide (command = EmptyString) then (fs, authenticated_user, Nothing)
  else
    let parts := Str.split 2 command in
    if decide (parts = []) then
      (fs, authenticated_user, Send "ERROR Invalid command format")
    else
      let cmd := Str.upper (item parts 0) in
      if decide (cmd = "AUTH") then
        let '(u, a) := auth srv authenticated_user parts in (fs, u, a)
      else
        match authenticated_user with
        | None => (fs, None, Send "ERROR Authentication required")
        | Some user =>
            if decide (cmd = "UPLOAD") then
              let '(fs', a) := upload srv fs user parts in (fs', Some user, a)
            else if decide (cmd = "DOWNLOAD") then
              let '(fs', a) := download srv fs user parts in (fs', Some user, a)
            else if decide (cmd = "DELETE") then
              let '(fs', a) := delete srv fs user parts in (fs', Some user, a)
            else if decide (cmd = "LIST") then
              let '(fs', a) := list_files srv fs user in (fs', Some user, a)
            else (fs, Some user, Send "ERROR Unknown command")
        end.

(** [handle_client]: the loop over what the socket delivers, from a
    connection with [authenticated_user = None].  An empty read is the
    end of the connection.  The result holds the responses sent, first
    to last. *)
Fixpoint serve (srv : FileServer) (fs : filesystem)
    (authenticated_user : option string) (received : list string)
    : filesystem * option string * list string :=
  match received with
  | [] => (fs, authenticated_user, [])
  | text :: rest =>
      if decide (text = EmptyString) then (fs, authenticated_user, [])
      else
        match handle_command srv fs authenticated_user text with
        | (fs', u, Send response) =>
            let '(fs'', u', sent) := serve srv fs' u rest in
            (fs'', u', response :: sent)
        | (fs', u, Nothing) => serve srv fs' u rest
        | (fs', u, Closed _) => (fs', u, [])
        end
  end.

Definition handle_client (srv : FileServer) (fs : filesystem)
    (received : list string) : filesystem * option string * list string :=
  serve srv fs None received.

End Server.

(** ** A small installation, for the examples *)

Definition demo_server : FileServer :=
  {| storage_dir := "storage";
     users := <["alice" := "secret123"]> (<["bob" := "hunter2"]> ∅) |}.

(** The working directory is [/srv]; [/srv/storage] exists, as
    [_ensure_storage_exists] leaves it. *)
Definition demo_fs : filesystem :=
  FS ["srv"] (<[["storage"; "srv"] := Dir]> (<[["srv"] := Dir]> (<[[] := Dir]> ∅))).

Definition hello : list byte := [x68; x65; x6c; x6c; x6f].

(** ** The client: [FileClient] *)

Module Client.

Definition endpoint : Type := string * N.

(** A socket object.  [sid] tells the objects apart (the [n]-th socket
    the client created), [remote] is the index of the endpoint it was
    created for, [connected] tells whether [connect] succeeded. *)
Record socket := Socket {
  sid : nat;
  remote : nat;
  connected : bool
}.

(** The fields of [FileClient]; [created] counts the socket objects
    created so far and is not a field of the program. *)
Record FileClient := {
  nodes : list endpoint;
  current_node : nat;
  session : option socket;
  authenticated : bool;
  created : nat
}.

(** [FileClient.__init__]. *)
Definition init (nodes : list endpoint) : FileClient :=
  {| nodes := nodes; current_node := 0; session := None;
     authenticated := false; created := 0 |}.

(** What the network does with one command sent on a connected socket:
    [send] raises, or [recv] times out or raises, or a response
    arrives. *)
Inductive exchange :=
  | SendFails
  | RecvTimeout
  | RecvFails
  | Response (text : string).

Section Network.

(** The endpoints that accept a connection. *)
Variable accepts : endpoint → bool.

(** The [while attempts < len(self.nodes)] loop; [remaining] is
    [len(self.nodes) - attempts].  Every attempt creates a socket and
    stores it in [self.session] before [connect] is called.  The last
    component of the result lists the indices tried, in order.  The
    index is in range whenever the loop runs on a client made by [init];
    an index out of range is reported as an exception. *)
Fixpoint connect_loop (remaining : nat) (c : FileClient)
    : FileClient * result bool * list nat :=
  match remaining with
  | 0 => (c, Ok false, [])
  | S remaining' =>
      match nodes c !! current_node c with
      | None => (c, Raise (ValueError "list index out of range"), [])
      | Some node =>
          let ok := accepts node in
          let s := Socket (created c) (current_node c) ok in
          if ok then
            ({| nodes := nodes c; current_node := current_node c;
                session := Some s; authenticated := authenticated c;
                created := S (created c) |}, Ok true, [current_node c])
          else
            let '(c', r, tried) :=
              connect_loop remaining'
                {| nodes := nodes c;
                   current_node := (current_node c + 1) mod length (nodes c);
                   session := Some s; authenticated := authenticated c;
                   created := S (created c) |} in
            (c', r, current_node c :: tried)
      end
  end.

(** [FileClient._connect_to_next_node]. *)
Definition _connect_to_next_node (c : FileClient)
    : FileClient * result bool * list nat :=
  let c1 :=
    match session c with
    | Some _ =>
        {| nodes := nodes c; current_node := current_node c;
           session := None; authenticated := false; created := created c |}
    | None => c
    end in
  connect_loop (length (nodes c1)) c1.

(** The endpoint of index [i] accepts a connection. *)
Definition accepting (nodes : list endpoint) (i : nat) : bool :=
  match nodes !! i with
  | Some node => accepts node
  | None => false
  end.

(** [FileClient._ensure_connected]. *)
Definition _ensure_connected (c : FileClient) : FileClient * result bool :=
  match session c with
  | None => let '(c', r, _) := _connect_to_next_node c in (c', r)
  | Some _ => (c, Ok true)
  end.

Definition drop_session (c : FileClient) : FileClient :=
  {| nodes := nodes c; current_node := current_node c; session := None;
     authenticated := authenticated c; created := created c |}.

(** [FileClient._send_command]; [net] is what the network does with
    the command.  Sending on a socket that is not connected raises.
    The result is the response, [None] for Python's [None]; the
    second component is the socket the command was sent on, if
    any. *)
Definition _send_command (c : FileClient) (command : string) (net : exchange)
    : FileClient * result (option string) * option socket :=
  match _ensure_connected c with
  | (c1, Raise e) => (c1, Raise e, None)
  | (c1, Ok false) => (c1, Ok None, None)
  | (c1, Ok true) =>
      match session c1 with
      | None => (c1, Ok None, None)
      | Some s =>
          if negb (connected s) then (drop_session c1, Ok None, None)
          else
            match net with
            | SendFails => (drop_session c1, Ok None, None)
            | RecvTimeout => (c1, Ok None, Some s)
            | RecvFails => (c1, Ok None, Some s)
            | Response text => (c1, Ok (Some text), Some s)
            end
      end
  end.

Definition set_authenticated (c : FileClient) (b : bool) : FileClient :=
  {| nodes := nodes c; current_node := current_node c; session := session c;
     authenticated := b; created := created c |}.

(** [if response and response.startswith("OK")]. *)
Definition is_ok (response : option string) : bool :=
  match response with
  | Some text => negb (bool_decide (text = EmptyString)) && Str.startswith "OK" text
  | None => false
  end.

(** [FileClient.authenticate]; every exception is caught. *)
Definition authenticate (c : FileClient) (username password : string)
    (net : exchange) : FileClient * bool * option socket :=
  let command := "AUTH " +:+ username +:+ " " +:+ password in
  match _send_command c command net with
  | (c1, Raise _, on) => (c1, false, on)
  | (c1, Ok response, on) =>
      if is_ok response then (set_authenticated c1 true, true, on)
      else (c1, false, on)
  end.

(** [FileClient.delete_file]. *)
Definition delete_file (c : FileClient) (filename : string) (net : exchange)
    : FileClient * bool * option socket :=
  if negb (authenticated c) then (c, false, None)
  else
    match _send_command c ("DELETE " +:+ filename) net with
    | (c1, Raise _, on) => (c1, false, on)
    | (c1, Ok response, on) => (c1, is_ok response, on)
    end.

(** [FileClient.close]. *)
Definition close (c : FileClient) : FileClient :=
  {| nodes := nodes c; current_node := current_node c; session := None;
     authenticated := false; created := created c |}.

End Network.

End Client.

(** ** Bounded checks, used where a fact about bytes is settled by
    running through all of them *)

Definition below (k : nat) (f : N → bool) : bool :=
  forallb f (N.of_nat <$> seq 0 k).

Module Sextet.

(** The four 6-bit values [b64encode] makes of three bytes. *)
Definition s1 (a : N) : N := N.shiftr a 2.
Definition s2 (a b : N) : N := N.lor (N.shiftl (N.land a 3) 4) (N.shiftr b 4).
Definition s3 (b c : N) : N := N.lor (N.shiftl (N.land b 15) 2) (N.shiftr c 6).
Definition s4 (c : N) : N := N.land c 63.

(** What the decoder needs of two neighbouring bytes. *)
Definition pair_ok (x y : N) : bool :=
  ((s1 x <? 64) && (s2 x y <? 64) && (s3 x y <? 64) && (s4 x <? 64)
   && (N.land (N.lor (N.shiftl (s1 x) 2) (N.shiftr (s2 x y) 4)) 255 =? x)
   && (N.land (s2 x y) 15 =? N.shiftr y 4)
   && (N.land (N.lor (N.shiftl (N.shiftr x 4) 4) (N.shiftr (s3 x y) 2)) 255 =? x)
   && (N.land (s3 x y) 3 =? N.shiftr y 6)
   && (N.land (N.lor (N.shiftl (N.shiftr x 6) 6) (s4 x)) 255 =? x)
   && (N.shiftl (N.land x 3) 4 =? s2 x 0)
   && (N.shiftl (N.land x 15) 2 =? s3 x 0))%N.

(** What the decoder needs of the character of a 6-bit value. *)
Definition char_ok (n : N) : bool :=
  let c := Base64.table_b2a n in
  (Base64.table_a2b c =? n)%N && negb (bool_decide (c = Base64.BASE64_PAD)).

(** No character of an encoding is whitespace or beyond ASCII. *)
Definition plain_char (c : ascii) : bool :=
  (N_of_ascii c <? 128)%N && negb (Str.isspace c).

End Sextet.

(** ** Notions used to state the storage properties *)

(** Every directory of [m] is a directory of [m']. *)
Definition dirs_kept (m m' : gmap (list string) node) : Prop :=
  ∀ p, m !! p = Some Dir → m' !! p = Some Dir.

(** The file a command of [user] names with [filename] lies below the
    directory of [user]. *)
Definition in_namespace (srv : FileServer) (fs : filesystem)
    (user filename : string) : bool :=
  let user_dir := Os.path_join (storage_dir srv) user in
  match Os.resolve fs user_dir, Os.resolve fs (Os.path_join user_dir filename) with
  | Ok d, Ok p => bool_decide (d `suffix_of` p ∧ d ≠ p)
  | _, _ => false
  end.

(** A word: a text a command line can carry as one argument, that is,
    not empty and free of whitespace. *)
Fixpoint no_space (s : string) : bool :=
  match s with
  | EmptyString => true
  | String c s' => negb (Str.isspace c) && no_space s'
  end.

Definition is_word (s : string) : bool :=
  negb (bool_decide (s = EmptyString)) && no_space s.

(** The command lines the client builds in [upload_file] and
    [download_file]. *)
Definition upload_command (filename : string) (file_content : list byte) : string :=
  "UPLOAD " +:+ filename +:+ " " +:+ Base64.b64encode file_content.


(** A name: one component of a path, other than [.] and [..]. *)
Definition is_name (s : string) : bool :=
  negb (bool_decide (s = EmptyString))
  && negb (Str.contains Os.sep s) && negb (Os.has_nul s)
  && negb (bool_decide (s = ".")) && negb (bool_decide (s = "..")).

(** ** More of the program *)


(** [MAX_COMMAND_LENGTH = BUFFER_SIZE * 10], with
    [BUFFER_SIZE = 1024 * 1024]. *)
Definition BUFFER_SIZE : N := 1024 * 1024.
Definition MAX_COMMAND_LENGTH : N := BUFFER_SIZE * 10.

(** [os.path.basename]: what follows the last separator. *)
Definition basename (path : string) : string :=
  List.last (Os.components path) EmptyString.

(** The command line [authenticate] builds. *)
Definition auth_command (username password : string) : string :=
  "AUTH " +:+ username +:+ " " +:+ password.

(** [FileClient.upload_file]; [local] is the file system of the client.
    The last component of the result is the command line and the socket
    it went out on, when one was sent.  A directory passes
    [os.path.exists] and fails in [open], inside the [try]. *)
Definition upload_file (accepts : Client.endpoint → bool) (c : Client.FileClient)
    (local : filesystem) (filepath : string) (net : Client.exchange)
    : Client.FileClient * bool * option (Client.socket * string) :=
  if negb (Client.authenticated c) then (c, false, None)
  else if negb (Os.path_exists local filepath) then (c, false, None)
  else
    match Os.read_file local filepath with
    | Raise _ => (c, false, None)
    | Ok file_content =>
        if (MAX_COMMAND_LENGTH <? N.of_nat (length file_content))%N
        then (c, false, None)
        else
          let filename := basename filepath in
          let command := upload_command filename file_content in
          match Client._send_command accepts c command net with
          | (c1, Raise _, _) => (c1, false, None)
          | (c1, Ok response, on) =>
              (c1, Client.is_ok response, (λ s, (s, command)) <$> on)
          end
    end.

(** The index of the current endpoint is in range. *)
Definition in_range (c : Client.FileClient) : Prop :=
  Client.current_node c < length (Client.nodes c).

(** A text of whitespace only. *)
Fixpoint all_space (s : string) : bool :=
  match s with
  | EmptyString => true
  | String c s' => Str.isspace c && all_space s'
  end.

(** The characters the decoder looks at: those of the alphabet and the
    padding character. *)
Definition significant (c : ascii) : bool :=
  Base64.in_alphabet c || bool_decide (c = Base64.BASE64_PAD).

Fixpoint drop_foreign (s : string) : string :=
  match s with
  | EmptyString => EmptyString
  | String c s' =>
      if significant c then String c (drop_foreign s') else drop_foreign s'
  end.

(** The response lines of [handle_client]: the fixed ones, and the
    beginnings of those that carry a payload or [str(e)]. *)
Definition fixed_replies : list string :=
  ["OK Authenticated"; "ERROR Invalid auth command"; "ERROR Invalid password";
   "ERROR User not found"; "ERROR Authentication required";
   "ERROR Invalid upload command"; "OK File uploaded";
   "ERROR Invalid download command"; "ERROR File not found";
   "ERROR Invalid delete command"; "OK File deleted"; "ERROR Unknown command"].

Definition reply_prefixes : list string :=
  ["OK "; "ERROR Upload failed: "; "ERROR Download failed: ";
   "ERROR Delete failed: "; "ERROR List failed: "].

Definition protocol_reply (r : string) : Prop :=
  r ∈ fixed_replies ∨ ∃ prefix x, prefix ∈ reply_prefixes ∧ r = prefix +:+ x.

Definition is_protocol_reply (r : string) : bool :=
  bool_decide (r ∈ fixed_replies)
  || existsb (λ prefix, Str.startswith prefix r) reply_prefixes.

(** * Properties *)

(** ** The model at work *)

Example b64encode_hello :
  Base64.b64encode [x68; x65; x6c; x6c; x6f] = "aGVsbG8=".
Proof. reflexivity. Qed.

Example b64decode_hello :
  Base64.b64decode "aGVsbG8=" = Ok [x68; x65; x6c; x6c; x6f].
Proof. reflexivity. Qed.

Example b64decode_skips :
  Base64.b64decode "aGVs!bG8=" = Ok [x68; x65; x6c; x6c; x6f].
Proof. reflexivity. Qed.

Example b64decode_short :
  Base64.b64decode "aGVsbG8" = Raise (BinasciiError "Incorrect padding").
Proof. reflexivity. Qed.

Example b64decode_one :
  Base64.b64decode "aGVsb" = Raise (BinasciiError
    "Invalid base64-encoded string: number of data characters (5) cannot be 1 more than a multiple of 4").
Proof. vm_compute. reflexivity. Qed.

Example split_upload :
  Str.split 2 (Str.strip "  upload  a.txt   aGVs bG8=  ") = ["upload"; "a.txt"; "aGVs bG8="].
Proof. reflexivity. Qed.

Example demo_session :
  (Server.handle_client demo_server demo_fs
     ["LIST"; "AUTH carol x"; "AUTH alice wrongpass"; "AUTH alice secret123";
      "UPLOAD notes.txt aGVsbG8="; "DOWNLOAD notes.txt"; "LIST";
      "DELETE notes.txt"; "DOWNLOAD notes.txt"; "frobnicate"]).2
  = ["ERROR Authentication required"; "ERROR User not found";
     "ERROR Invalid password"; "OK Authenticated"; "OK File uploaded";
     "OK aGVsbG8="; "OK [" +:+ Json.encode_str "notes.txt" +:+ "]";
     "OK File deleted"; "ERROR File not found"; "ERROR Unknown command"].
Proof. vm_compute. reflexivity. Qed.

Example failover :
  let '(c, r, tried) :=
    Client._connect_to_next_node (λ e, bool_decide (e.2 = 8081%N))
      (Client.init [("deadhost", 8080%N); ("localhost", 8081%N)]) in
  r = Ok true ∧ Client.current_node c = 1 ∧ tried = [0; 1].
Proof. vm_compute. done. Qed.

(** ** The payload codec *)

Lemma below_spec k f n : below k f = true → (n < N.of_nat k)%N → f n = true.
Proof.
  unfold below. rewrite forallb_forall. intros H Hn. apply H.
  apply list_elem_of_In, list_elem_of_fmap. exists (N.to_nat n).
  split; [lia|]. apply elem_of_seq. lia.
Qed.

Lemma byte_below (a : byte) : (Byte.to_N a < N.of_nat 256)%N.
Proof. pose proof (Byte.to_N_bounded a). lia. Qed.

Lemma pair_ok_bytes (a b : byte) :
  Sextet.pair_ok (Byte.to_N a) (Byte.to_N b) = true.
Proof.
  assert (H : below 256 (λ x, below 256 (Sextet.pair_ok x)) = true)
    by (vm_compute; reflexivity).
  apply (below_spec 256 (Sextet.pair_ok (Byte.to_N a))); [|apply byte_below].
  apply (below_spec 256 (λ x, below 256 (Sextet.pair_ok x))); [exact H|].
  apply byte_below.
Qed.

Lemma char_ok_sextet n : (n < 64)%N → Sextet.char_ok n = true.
Proof.
  intros Hn. apply (below_spec 64 Sextet.char_ok); [vm_compute; reflexivity|lia].
Qed.

Lemma to_uchar_byte n (a : byte) :
  N.land n 255 = Byte.to_N a → Base64.to_uchar n = a.
Proof. intros H. unfold Base64.to_uchar. by rewrite H, Byte.of_to_N. Qed.

(** The decoder on the character of a 6-bit value. *)
Lemma a2b_loop_sextet n rest quad_pos leftchar pads out :
  (n < 64)%N →
  Base64.a2b_loop (String (Base64.table_b2a n) rest) quad_pos leftchar pads out =
  match quad_pos with
  | 0 => Base64.a2b_loop rest 1 n 0 out
  | 1 =>
      Base64.a2b_loop rest 2 (N.land n 15) 0
        (Base64.to_uchar (N.lor (N.shiftl leftchar 2) (N.shiftr n 4)) :: out)
  | 2 =>
      Base64.a2b_loop rest 3 (N.land n 3) 0
        (Base64.to_uchar (N.lor (N.shiftl leftchar 4) (N.shiftr n 2)) :: out)
  | _ =>
      Base64.a2b_loop rest 0 0 0
        (Base64.to_uchar (N.lor (N.shiftl leftchar 6) n) :: out)
  end.
Proof.
  intros Hn. pose proof (char_ok_sextet n Hn) as Hc.
  unfold Sextet.char_ok in Hc. apply andb_true_iff in Hc as [Ha Hp].
  apply N.eqb_eq in Ha. apply negb_true_iff, bool_decide_eq_false in Hp.
  cbn [Base64.a2b_loop]. destruct (decide _) as [|_]; [done|].
  rewrite Ha. destruct (N.leb_spec 64 n); [lia|]. reflexivity.
Qed.

Ltac pair_facts a b :=
  let H := fresh "H" in
  pose proof (pair_ok_bytes a b) as H; unfold Sextet.pair_ok in H;
  repeat (apply andb_true_iff in H as [H ?]);
  repeat match goal with
         | H : (_ <? _)%N = true |- _ => apply N.ltb_lt in H
         | H : (_ =? _)%N = true |- _ => apply N.eqb_eq in H
         end.




Lemma list_ind3 {A} (P : list A → Prop) :
  P [] → (∀ a, P [a]) → (∀ a b, P [a; b]) →
  (∀ a b c rest, P rest → P (a :: b :: c :: rest)) →
  ∀ l, P l.
Proof.
  intros H0 H1 H2 H3.
  fix IH 1. intros [|a [|b [|c rest]]].
  - exact H0.
  - apply H1.
  - apply H2.
  - apply H3, IH.
Qed.


Lemma string_get_beyond s k : String.length s ≤ k → String.get k s = None.
Proof.
  revert k. induction s as [|c s IH]; intros k Hk; [by destruct k|].
  destruct k as [|k]; cbn in *; [lia|]. apply IH. lia.
Qed.

Lemma plain_char_table n : Sextet.plain_char (Base64.table_b2a n) = true.
Proof.
  destruct (decide (n < 64)%N) as [Hn|Hn].
  - apply (below_spec 64 (λ n, Sextet.plain_char (Base64.table_b2a n)));
      [vm_compute; reflexivity|lia].
  - unfold Base64.table_b2a.
    replace (String.get (N.to_nat n) Base64.alphabet) with (@None ascii);
      [reflexivity|].
    symmetry. apply string_get_beyond.
    change (String.length Base64.alphabet) with 64. lia.
Qed.

Lemma plain_b64encode data :
  ∀ c, Str.contains c (Base64.b64encode data) = true → Sextet.plain_char c = true.
Proof.
  assert (Hpad : Sextet.plain_char Base64.BASE64_PAD = true) by reflexivity.
  induction data as [|a|a b|a b c' rest IH] using list_ind3; intros c;
    cbn [Base64.b64encode Str.contains]; [done|..];
    repeat (destruct (decide _) as [<-|_]; [by auto using plain_char_table|]);
    auto; done.
Qed.

Lemma is_ascii_plain s :
  (∀ c, Str.contains c s = true → Sextet.plain_char c = true) →
  Base64.is_ascii s = true.
Proof.
  induction s as [|a s IH]; intros H; [done|]. cbn.
  apply andb_true_iff. split.
  - specialize (H a). cbn in H. destruct (decide _); [|done].
    apply andb_true_iff in H as [H _]; done.
  - apply IH. intros c Hc. apply H. cbn. destruct (decide _); done.
Qed.


(** ** The dispatcher *)

Lemma parse_nonempty text : Server.parse text ≠ [] → Str.strip text ≠ EmptyString.
Proof. intros H E. apply H. unfold Server.parse. by rewrite E. Qed.

(** [handle_command] on a text that holds a command. *)
Lemma handle_command_parts srv fs u text :
  Server.parse text ≠ [] →
  Server.handle_command srv fs u text =
  let parts := Server.parse text in
  let cmd := Server.verb text in
  if decide (cmd = "AUTH") then
    let '(u', a) := Server.auth srv u parts in (fs, u', a)
  else
    match u with
    | None => (fs, None, Send "ERROR Authentication required")
    | Some user =>
        if decide (cmd = "UPLOAD") then
          let '(fs', a) := Server.upload srv fs user parts in (fs', Some user, a)
        else if decide (cmd = "DOWNLOAD") then
          let '(fs', a) := Server.download srv fs user parts in (fs', Some user, a)
        else if decide (cmd = "DELETE") then
          let '(fs', a) := Server.delete srv fs user parts in (fs', Some user, a)
        else if decide (cmd = "LIST") then
          let '(fs', a) := Server.list_files srv fs user in (fs', Some user, a)
        else (fs, Some user, Send "ERROR Unknown command")
    end.
Proof.
  intros Hp. unfold Server.handle_command.
  destruct (decide (Str.strip text = _)) as [E|_]; [by apply parse_nonempty in Hp|].
  fold (Server.parse text). destruct (decide (Server.parse text = [])); [done|].
  reflexivity.
Qed.

(** C4: a command whose verb is not AUTH, received on a connection that
    has not authenticated, is answered [ERROR Authentication required];
    the connection stays unauthenticated and the storage is left as it
    was. *)
Theorem auth_required srv fs text :
  Server.parse text ≠ [] →
  Server.verb text ≠ "AUTH" →
  Server.handle_command srv fs None text
  = (fs, None, Send "ERROR Authentication required").
Proof.
  intros Hp Hv. rewrite handle_command_parts by done. cbn zeta.
  destruct (decide _); done.
Qed.

Lemma auth_required_witness :
  Server.handle_command demo_server demo_fs None "DELETE notes.txt"
  = (demo_fs, None, Send "ERROR Authentication required").
Proof. apply auth_required; vm_compute; discriminate. Defined.

(** C5: the answer to [AUTH user pass] is read off the user mapping: an
    unknown user and a wrong password are refused and leave the
    connection as it was, the right password sets the connection's user. *)
Theorem auth_outcome srv fs u text v user pass :
  Server.parse text = [v; user; pass] →
  Str.upper v = "AUTH" →
  (users srv !! user = None →
   Server.handle_command srv fs u text = (fs, u, Send "ERROR User not found"))
  ∧ (∀ stored, users srv !! user = Some stored → stored ≠ pass →
     Server.handle_command srv fs u text = (fs, u, Send "ERROR Invalid password"))
  ∧ (users srv !! user = Some pass →
     Server.handle_command srv fs u text = (fs, Some user, Send "OK Authenticated")).
Proof.
  intros Hp Hv.
  assert (Hne : Server.parse text ≠ []) by (rewrite Hp; done).
  rewrite handle_command_parts by done. cbn zeta.
  unfold Server.verb. rewrite Hp.
  change (Server.item [v; user; pass] 0) with v.
  rewrite Hv. destruct (decide _); [|done].
  unfold Server.auth.
  destruct (decide (length [v; user; pass] ≠ 3)); [done|].
  change (Server.item [v; user; pass] 1) with user.
  change (Server.item [v; user; pass] 2) with pass.
  repeat split.
  - intros ->. reflexivity.
  - intros stored -> Hs. destruct (decide _); done.
  - intros ->. destruct (decide _); done.
Qed.

Lemma auth_outcome_witness :
  Server.handle_command demo_server demo_fs None "AUTH carol x"
  = (demo_fs, None, Send "ERROR User not found")
  ∧ Server.handle_command demo_server demo_fs None "AUTH alice wrongpass"
    = (demo_fs, None, Send "ERROR Invalid password")
  ∧ Server.handle_command demo_server demo_fs None "auth alice secret123"
    = (demo_fs, Some "alice", Send "OK Authenticated").
Proof.
  split; [|split].
  - apply (auth_outcome demo_server demo_fs None "AUTH carol x" "AUTH" "carol" "x");
      vm_compute; reflexivity.
  - apply (auth_outcome demo_server demo_fs None "AUTH alice wrongpass" "AUTH"
             "alice" "wrongpass") with (stored := "secret123");
      vm_compute; (reflexivity || discriminate).
  - apply (auth_outcome demo_server demo_fs None "auth alice secret123" "auth"
             "alice" "secret123"); vm_compute; reflexivity.
Defined.

(** C10: on a connection that has not authenticated, an unknown verb
    meets the authentication gate, not the dispatcher; [ERROR Unknown
    command] is only sent on an authenticated connection. *)
Theorem gate_before_dispatch srv fs text :
  (Server.parse text ≠ [] →
   Server.verb text ∉ ["AUTH"; "UPLOAD"; "DOWNLOAD"; "DELETE"; "LIST"] →
   Server.handle_command srv fs None text
   = (fs, None, Send "ERROR Authentication required"))
  ∧ (∀ u, (Server.handle_command srv fs u text).2 = Send "ERROR Unknown command" →
          is_Some u).
Proof.
  split.
  - intros Hp Hv. rewrite handle_command_parts by done. cbn zeta.
    destruct (decide _) as [E|]; [|done].
    exfalso. apply Hv. rewrite E. set_solver.
  - intros [user|]; [eauto|]. intros H. exfalso. revert H.
    unfold Server.handle_command.
    destruct (decide (Str.strip text = _)); [done|].
    destruct (decide (Str.split 2 (Str.strip text) = [])); [done|].
    destruct (decide (_ = "AUTH")); [|done].
    unfold Server.auth. destruct (decide (length _ ≠ 3)); [done|].
    destruct (users srv !! _); [|done].
    destruct (decide _); done.
Qed.

Lemma gate_before_dispatch_witness :
  Server.handle_command demo_server demo_fs None "frobnicate now"
  = (demo_fs, None, Send "ERROR Authentication required").
Proof.
  apply (proj1 (gate_before_dispatch demo_server demo_fs "frobnicate now")).
  - vm_compute. discriminate.
  - vm_compute. intros H.
    repeat (apply elem_of_cons in H as [H|H]; [discriminate H|]).
    by apply elem_of_nil in H.
Defined.

(** ** The authenticated user of a connection *)

(** C2, as stated, fails: a second successful AUTH on the connection
    replaces the authenticated user. *)
Lemma reauth_changes_user :
  let '(fs1, u1, a1) :=
    Server.handle_command demo_server demo_fs None "AUTH alice secret123" in
  let '(fs2, u2, a2) :=
    Server.handle_command demo_server fs1 u1 "AUTH bob hunter2" in
  u1 = Some "alice" ∧ u2 = Some "bob" ∧ u2 ≠ u1 ∧ a2 = Send "OK Authenticated".
Proof. vm_compute. repeat split; discriminate. Qed.

(** C2, amended: the authenticated user changes only through a
    successful AUTH, which sets it to the user it names, be it the first
    or a later one; every other command, and every refused AUTH, leaves it
    as it is, and once set it is never unset. *)
Theorem auth_changes_only_by_auth srv fs u text :
  let '(_, u', a) := Server.handle_command srv fs u text in
  (u' = u
   ∨ ∃ v user pass,
       Server.parse text = [v; user; pass] ∧ Str.upper v = "AUTH"
       ∧ users srv !! user = Some pass
       ∧ u' = Some user ∧ a = Send "OK Authenticated")
  ∧ (is_Some u → is_Some u').
Proof.
  unfold Server.handle_command.
  destruct (decide (Str.strip text = _)); [by auto|].
  fold (Server.parse text).
  destruct (decide (Server.parse text = [])); [by auto|].
  destruct (decide (_ = "AUTH")) as [Hv|_].
  - unfold Server.auth.
    destruct (decide (length _ ≠ 3)) as [|Hl]; [by auto|].
    destruct (Server.parse text) as [|v [|user [|pass [|]]]] eqn:Hp;
      try (exfalso; apply Hl; cbn; lia).
    change (Server.item [v; user; pass] 0) with v in Hv.
    change (Server.item [v; user; pass] 1) with user.
    change (Server.item [v; user; pass] 2) with pass.
    destruct (users srv !! user) as [stored|] eqn:Hu; [|by auto].
    destruct (decide (stored = pass)) as [->|]; [|by auto].
    split; [|by eauto]. right. by exists v, user, pass.
  - destruct u as [user|]; [|by auto].
    assert (Hdone : ∀ (fs' : filesystem) (a : action),
               (Some user = Some user
                ∨ ∃ v user0 pass,
                    Server.parse text = [v; user0; pass] ∧ Str.upper v = "AUTH"
                    ∧ users srv !! user0 = Some pass
                    ∧ Some user = Some user0 ∧ a = Send "OK Authenticated")
               ∧ (is_Some (Some user) → is_Some (Some user))) by auto.
    destruct (decide _); [destruct (Server.upload _ _ _ _); by apply Hdone|].
    destruct (decide _); [destruct (Server.download _ _ _ _); by apply Hdone|].
    destruct (decide _); [destruct (Server.delete _ _ _ _); by apply Hdone|].
    destruct (decide _); [destruct (Server.list_files _ _ _); by apply Hdone|].
    by apply Hdone.
Qed.

Lemma auth_changes_only_by_auth_witness :
  is_Some (Some "alice")
  ∧ is_Some (Server.handle_command demo_server demo_fs (Some "alice") "LIST").1.2.
Proof.
  assert (is_Some (Some "alice")) as Hset by (by exists "alice").
  split; [exact Hset|].
  pose proof (auth_changes_only_by_auth demo_server demo_fs (Some "alice") "LIST")
    as H.
  destruct (Server.handle_command demo_server demo_fs (Some "alice") "LIST")
    as [[fs' u'] a].
  exact (proj2 H Hset).
Defined.

(** ** Payloads the decoder refuses *)








(** ** The file tree *)

Lemma dirs_kept_refl m : dirs_kept m m.
Proof. by intros p. Qed.

Lemma dirs_kept_trans m1 m2 m3 :
  dirs_kept m1 m2 → dirs_kept m2 m3 → dirs_kept m1 m3.
Proof. intros H1 H2 p Hp. by apply H2, H1. Qed.

Lemma dirs_kept_subseteq (m m' : gmap (list string) node) :
  m ⊆ m' → dirs_kept m m'.
Proof. intros H p Hp. by eapply lookup_weaken. Qed.

Lemma dirs_kept_write (m : gmap (list string) node) p content :
  m !! p ≠ Some Dir → dirs_kept m (<[p := File content]> m).
Proof.
  intros Hp q Hq. destruct (decide (p = q)) as [->|]; [done|].
  by rewrite lookup_insert_ne.
Qed.

Lemma dirs_kept_remove (m : gmap (list string) node) p content :
  m !! p = Some (File content) → dirs_kept m (delete p m).
Proof.
  intros Hp q Hq. destruct (decide (p = q)) as [->|]; [congruence|].
  by rewrite lookup_delete_ne.
Qed.

Lemma walk_kept m m' cur comps r :
  dirs_kept m m' → Os.walk m cur comps = inl r → Os.walk m' cur comps = inl r.
Proof.
  intros Hk. revert cur. induction comps as [|c comps IH]; intros cur; [done|].
  cbn. destruct (m !! cur) as [[|]|] eqn:E; try done.
  rewrite (Hk _ E). apply IH.
Qed.

Lemma walk_app m cur l1 l2 p :
  Os.walk m cur l1 = inl p → Os.walk m cur (l1 ++ l2) = Os.walk m p l2.
Proof.
  revert cur. induction l1 as [|c l1 IH]; intros cur; cbn.
  - by intros [= ->].
  - destruct (m !! cur) as [[|]|]; try done. apply IH.
Qed.

Lemma resolve_kept fs fs' path p :
  cwd fs' = cwd fs → dirs_kept (nodes fs) (nodes fs') →
  Os.resolve fs path = Ok p → Os.resolve fs' path = Ok p.
Proof.
  intros Hc Hk. unfold Os.resolve, Os.start_of. rewrite Hc.
  destruct (Os.has_nul path); [done|]. destruct (decide _); [done|].
  destruct (Os.walk (nodes fs) _ _) as [q|] eqn:E; [|done].
  intros [= ->]. by rewrite (walk_kept _ _ _ _ _ Hk E).
Qed.

Lemma path_exists_stat fs path :
  Os.path_exists fs path = true ↔
  ∃ p n, Os.resolve fs path = Ok p ∧ nodes fs !! p = Some n.
Proof.
  unfold Os.path_exists, Os.stat. split.
  - destruct (Os.resolve fs path) as [p|]; [|done].
    destruct (nodes fs !! p) as [n|] eqn:E; [|done]. eauto.
  - intros (p & n & -> & ->). done.
Qed.

Lemma split_on_nonempty sep s : Str.split_on sep s ≠ [].
Proof.
  destruct s as [|c s]; cbn; [done|].
  destruct (decide _); [done|]. by destruct (Str.split_on sep s).
Qed.

Lemma has_nul_components path :
  Forall (λ c, Os.has_nul c = false) (Os.components path) →
  Os.has_nul path = false.
Proof.
  unfold Os.components, Os.has_nul.
  induction path as [|a s IH]; [done|]. cbn.
  destruct (decide (a = Os.sep)) as [->|Ha].
  - intros H. apply Forall_cons in H as [_ H].
    destruct (decide _); [done|]. by apply IH.
  - revert IH. destruct (Str.split_on Os.sep s) as [|w ws] eqn:E;
      [by apply split_on_nonempty in E|].
    intros IH H. apply Forall_cons in H as [Hw H]. cbn in Hw.
    destruct (decide _); [done|]. apply IH. by apply Forall_cons.
Qed.

Lemma all_empty_no_nul comps :
  Os.all_empty comps = true → Forall (λ c, Os.has_nul c = false) comps.
Proof.
  induction comps as [|c comps IH]; [done|]. cbn.
  intros [Hc H]%andb_true_iff. apply bool_decide_eq_true in Hc as ->.
  apply Forall_cons. split; [done|by apply IH].
Qed.

Lemma walk_all_empty m cur comps :
  Os.all_empty comps = true → m !! cur = Some Dir →
  Os.walk m cur comps = inl cur.
Proof.
  intros H Hd. induction comps as [|c comps IH]; [done|]. cbn in *.
  apply andb_true_iff in H as [Hc H]. apply bool_decide_eq_true in Hc as ->.
  rewrite Hd. unfold Os.enter. destruct (decide _) as [|n]; [by apply IH|].
  exfalso. apply n. by left.
Qed.

(** What the creation loop leaves: nothing is lost, and after a success
    the path names a node. *)
Lemma mkdirs_spec comps :
  ∀ m cur m' r, Os.mkdirs m cur comps = (m', r) →
  m ⊆ m'
  ∧ (r = None → comps ≠ [] →
     (∃ p, Os.walk m' cur comps = inl p ∧ is_Some (m' !! p))
     ∧ Forall (λ c, Os.has_nul c = false) comps).
Proof.
  induction comps as [|c rest IH]; intros m cur m' r; cbn [Os.mkdirs].
  - intros [= <- <-]. split; [done|]. by intros _ [].
  - destruct (Os.has_nul c) eqn:Hn.
    { intros [= <- <-]. split; [done|]. by intros [=]. }
    destruct (m !! cur) as [[|]|] eqn:Hcur;
      try (intros [= <- <-]; split; [done|]; by intros [=]).
    destruct (Os.all_empty rest) eqn:Hrest.
    + destruct (decide (c = ".")) as [->|Hc].
      * intros [= <- <-]. split; [done|]. intros _ _. split.
        -- exists cur. cbn. rewrite Hcur. split; [|by eauto].
           by apply walk_all_empty.
        -- apply Forall_cons. split; [done|by apply all_empty_no_nul].
      * destruct (m !! Os.enter cur c) eqn:Hnxt.
        { intros [= <- <-]. split; [done|]. by intros [=]. }
        intros [= <- <-]. split; [by apply insert_subseteq|].
        intros _ _. split.
        -- exists (Os.enter cur c). cbn.
           assert (Os.enter cur c ≠ cur) by congruence.
           rewrite lookup_insert_ne, Hcur by done.
           split; [|by rewrite lookup_insert_eq; eauto].
           apply walk_all_empty; [done|]. by rewrite lookup_insert_eq.
        -- apply Forall_cons. split; [done|by apply all_empty_no_nul].
    + assert (rest ≠ []) by (intros ->; done).
      destruct (m !! Os.enter cur c) eqn:Hnxt; intros Hm.
      * apply IH in Hm as [Hsub Hok]. split; [done|].
        intros -> _. destruct (Hok eq_refl) as [(p & Hw & Hp) Hf]; [done|].
        split; [|by apply Forall_cons].
        exists p. cbn. by rewrite (lookup_weaken _ _ _ _ Hcur Hsub).
      * apply IH in Hm as [Hsub Hok].
        assert (m ⊆ m') as Hsub'.
        { etrans; [|exact Hsub]. by apply insert_subseteq. }
        split; [done|].
        intros -> _. destruct (Hok eq_refl) as [(p & Hw & Hp) Hf]; [done|].
        split; [|by apply Forall_cons].
        exists p. cbn. by rewrite (lookup_weaken _ _ _ _ Hcur Hsub').
Qed.

Lemma makedirs_spec fs path fs' r :
  Os.makedirs fs path = (fs', r) →
  cwd fs' = cwd fs ∧ nodes fs ⊆ nodes fs'
  ∧ (r = None → Os.path_exists fs' path = true).
Proof.
  unfold Os.makedirs. destruct (decide (path = _)) as [|Hne].
  { intros [= <- <-]. done. }
  destruct (Os.path_exists fs path).
  { intros [= <- <-]. done. }
  destruct (Os.mkdirs _ _ _) as [m o] eqn:Hm. intros [= <- <-].
  apply mkdirs_spec in Hm as [Hsub Hok]. split; [done|]. split; [done|].
  intros Hr. destruct o; [done|].
  destruct (Hok eq_refl) as [(p & Hw & [n Hp]) Hf]; [apply split_on_nonempty|].
  apply path_exists_stat. exists p, n. split; [|done].
  unfold Os.resolve. rewrite has_nul_components by done.
  destruct (decide _); [done|].
  change (Os.start_of (with_nodes fs m) path) with (Os.start_of fs path).
  cbn [nodes with_nodes]. by rewrite Hw.
Qed.

(** [_get_user_dir] returns the joined path, which then exists; it only
    adds directories, and none when the path exists already. *)
Lemma get_user_dir_spec srv fs user fs1 d :
  Server._get_user_dir srv fs user = (fs1, Ok d) →
  d = Os.path_join (storage_dir srv) user
  ∧ cwd fs1 = cwd fs ∧ nodes fs ⊆ nodes fs1
  ∧ Os.path_exists fs1 d = true
  ∧ (Os.path_exists fs d = true → fs1 = fs).
Proof.
  unfold Server._get_user_dir.
  destruct (Os.path_exists fs _) eqn:E; cbn [negb].
  - by intros [= <- <-].
  - destruct (Os.makedirs fs _) as [fs' [e|]] eqn:Hm; intros [= <- <-].
    apply makedirs_spec in Hm as (? & ? & Hex). repeat split; auto.
    congruence.
Qed.

(** ** Commands on an authenticated connection *)

(** The dispatcher on a command with a known verb. *)
Lemma handle_command_verb srv fs user text parts cmd :
  Server.parse text = parts → parts ≠ [] →
  Str.upper (Server.item parts 0) = cmd →
  Server.handle_command srv fs (Some user) text =
  if decide (cmd = "AUTH") then
    let '(u', a) := Server.auth srv (Some user) parts in (fs, u', a)
  else if decide (cmd = "UPLOAD") then
    let '(fs', a) := Server.upload srv fs user parts in (fs', Some user, a)
  else if decide (cmd = "DOWNLOAD") then
    let '(fs', a) := Server.download srv fs user parts in (fs', Some user, a)
  else if decide (cmd = "DELETE") then
    let '(fs', a) := Server.delete srv fs user parts in (fs', Some user, a)
  else if decide (cmd = "LIST") then
    let '(fs', a) := Server.list_files srv fs user in (fs', Some user, a)
  else (fs, Some user, Send "ERROR Unknown command").
Proof.
  intros Hp Hne Hc. rewrite handle_command_parts by congruence. cbn zeta.
  unfold Server.verb. rewrite Hp, Hc. reflexivity.
Qed.

Lemma append_literal_inv (a b : ascii) (s t u : string) :
  String a s +:+ u = String b t → a = b ∧ s +:+ u = t.
Proof. cbn. by intros [= -> ->]. Qed.

(** Replies that carry [str(e)] are none of the fixed replies. *)
Ltac not_this_reply H :=
  exfalso; revert H; clear;
  repeat match goal with
         | |- (_, ?x) = (_, ?y) → _ =>
             let E := fresh in intros [= _ E]; revert E
         | |- Send ?x = Send ?y → _ =>
             let E := fresh in intros [= E]; revert E
         | |- String _ _ +:+ _ = String _ _ → _ =>
             let E := fresh in
             intros E; apply append_literal_inv in E as [? E]; revert E
         end; done.

Lemma delete_ok_inv srv fs user parts fs2 :
  length parts = 2 →
  Server.delete srv fs user parts = (fs2, Send "OK File deleted") →
  ∃ fs1 d p content,
    Server._get_user_dir srv fs user = (fs1, Ok d)
    ∧ Os.resolve fs1 (Os.path_join d (Server.item parts 1)) = Ok p
    ∧ nodes fs1 !! p = Some (File content)
    ∧ fs2 = with_nodes fs1 (delete p (nodes fs1)).
Proof.
  intros Hl. unfold Server.delete.
  destruct (decide (length parts ≠ 2)); [done|].
  destruct (Server._get_user_dir srv fs user) as [fs1 [d|e]] eqn:Hd; [|done].
  unfold Os.remove, Os.stat.
  destruct (Os.resolve fs1 _) as [p|e] eqn:Hr.
  - destruct (nodes fs1 !! p) as [[content|]|] eqn:Hn.
    + intros [= <-]. by exists fs1, d, p, content.
    + intros H. not_this_reply H.
    + done.
  - destruct e as [| |[] ?]; intros H; (done || not_this_reply H).
Qed.

Lemma get_user_dir_existing srv fs user :
  Os.path_exists fs (Os.path_join (storage_dir srv) user) = true →
  Server._get_user_dir srv fs user = (fs, Ok (Os.path_join (storage_dir srv) user)).
Proof. intros H. unfold Server._get_user_dir. by rewrite H. Qed.

Lemma in_namespace_inv srv fs user filename :
  in_namespace srv fs user filename = true →
  ∃ d p, Os.resolve fs (Os.path_join (storage_dir srv) user) = Ok d
         ∧ Os.resolve fs (Os.path_join (Os.path_join (storage_dir srv) user) filename)
           = Ok p
         ∧ d ≠ p.
Proof.
  unfold in_namespace.
  destruct (Os.resolve fs (Os.path_join (storage_dir srv) user)) as [d|]; [|done].
  destruct (Os.resolve fs _) as [p|]; [|done].
  intros [_ H]%bool_decide_eq_true. by exists d, p.
Qed.

(** C9: after [DELETE filename] was answered [OK File deleted], for a
    file in the user's namespace, [DOWNLOAD filename] on the same
    connection is answered [ERROR File not found]. *)
Theorem delete_then_download srv fs user filename t1 v1 t2 v2 fs1 u1 :
  Server.parse t1 = [v1; filename] → Str.upper v1 = "DELETE" →
  Server.parse t2 = [v2; filename] → Str.upper v2 = "DOWNLOAD" →
  in_namespace srv fs user filename = true →
  Server.handle_command srv fs (Some user) t1 = (fs1, u1, Send "OK File deleted") →
  Server.handle_command srv fs1 u1 t2 = (fs1, Some user, Send "ERROR File not found").
Proof.
  intros Hp1 Hv1 Hp2 Hv2 Hns.
  rewrite (handle_command_verb _ _ _ _ _ "DELETE" Hp1) by done.
  repeat (destruct (decide _); [done|]). destruct (decide _); [|done].
  destruct (Server.delete _ _ _ _) as [fs' a] eqn:Hdel. intros [= -> <- ->].
  apply delete_ok_inv in Hdel
    as (fs0 & d & p & content & Hd & Hr & Hn & ->); [|done].
  change (Server.item [v1; filename] 1) with filename in Hr.
  apply get_user_dir_spec in Hd as (-> & Hcwd & Hsub & Hex & _).
  apply in_namespace_inv in Hns as (d' & p' & Hd' & Hp' & Hne).
  apply (resolve_kept fs fs0) in Hd', Hp'; auto using dirs_kept_subseteq.
  rewrite Hr in Hp'. injection Hp' as <-.
  set (fs1 := with_nodes fs0 (delete p (nodes fs0))).
  assert (Hk : dirs_kept (nodes fs0) (nodes fs1)) by by eapply dirs_kept_remove.
  rewrite (handle_command_verb _ _ _ _ _ "DOWNLOAD" Hp2) by done.
  repeat (destruct (decide _); [done|]). destruct (decide _); [|done].
  unfold Server.download. destruct (decide _); [done|].
  change (Server.item [v2; filename] 1) with filename.
  rewrite get_user_dir_existing; cycle 1.
  { apply path_exists_stat in Hex as (r & nd & Hres & Hlook).
    rewrite Hd' in Hres. injection Hres as <-.
    apply path_exists_stat. exists d', nd. split.
    - by apply (resolve_kept fs0 fs1).
    - subst fs1. cbn. by rewrite lookup_delete_ne. }
  unfold Os.read_file, Os.stat.
  rewrite (resolve_kept fs0 fs1 _ p) by done.
  subst fs1. cbn. by rewrite lookup_delete_eq.
Qed.

Lemma delete_then_download_witness :
  let fs := (Server.handle_command demo_server demo_fs (Some "alice")
               "UPLOAD notes.txt aGVsbG8=").1.1 in
  let fs1 := (Server.handle_command demo_server fs (Some "alice")
                "DELETE notes.txt").1.1 in
  Server.handle_command demo_server fs1 (Some "alice") "download notes.txt"
  = (fs1, Some "alice", Send "ERROR File not found").
Proof.
  intros fs fs1.
  apply (delete_then_download demo_server fs "alice" "notes.txt"
           "DELETE notes.txt" "DELETE" "download notes.txt" "download").
  - vm_compute. reflexivity.
  - vm_compute. reflexivity.
  - vm_compute. reflexivity.
  - vm_compute. reflexivity.
  - vm_compute. reflexivity.
  - vm_compute. reflexivity.
Defined.

(** ** Parsing the command lines of the client *)

Lemma app_cons a s t : String a s +:+ t = String a (s +:+ t).
Proof. reflexivity. Qed.

Lemma app_empty s : EmptyString +:+ s = s.
Proof. reflexivity. Qed.

Lemma string_app_assoc a b c : (a +:+ b) +:+ c = a +:+ (b +:+ c).
Proof. induction a as [|x a IH]; [done|]. by rewrite !app_cons, IH. Qed.

Lemma span_word_word w r :
  no_space w = true →
  r = EmptyString ∨ (∃ c r', r = String c r' ∧ Str.isspace c = true) →
  Str.span_word (w +:+ r) = (w, r).
Proof.
  intros Hw Hr. induction w as [|a w IH].
  - rewrite app_empty. destruct Hr as [->|(c & r' & -> & Hc)]; [done|].
    cbn. by rewrite Hc.
  - cbn in Hw. apply andb_true_iff in Hw as [Ha Hw].
    apply negb_true_iff in Ha.
    rewrite app_cons. cbn. rewrite Ha, IH by done. reflexivity.
Qed.

Lemma lstrip_word w r :
  is_word w = true → Str.lstrip (w +:+ r) = w +:+ r.
Proof.
  destruct w as [|a w]; [done|]. unfold is_word. cbn [no_space].
  intros [_ [Ha _]%andb_true_iff]%andb_true_iff. apply negb_true_iff in Ha.
  rewrite app_cons. cbn. by rewrite Ha.
Qed.

Lemma rstrip_word w : is_word w = true → Str.rstrip w = w.
Proof.
  unfold is_word. intros [_ Hw]%andb_true_iff.
  induction w as [|a w IH]; [done|]. cbn in *.
  apply andb_true_iff in Hw as [Ha Hw]. apply negb_true_iff in Ha.
  rewrite IH, Ha by done. by destruct w.
Qed.

Lemma rstrip_app_word s w :
  is_word w = true → Str.rstrip (s +:+ w) = s +:+ w.
Proof.
  intros Hw. induction s as [|a s IH].
  - by apply rstrip_word.
  - rewrite app_cons. cbn. rewrite IH.
    destruct (s +:+ w) eqn:E; [|done].
    destruct s; [|done]. rewrite app_empty in E. by subst w.
Qed.

Lemma split_last w : is_word w = true → ∀ n, Str.split n w = [w].
Proof.
  intros Hw n. pose proof (lstrip_word w EmptyString Hw) as Hl.
  assert (w +:+ EmptyString = w) as Hnil.
  { clear. induction w as [|a w IH]; [done|]. by rewrite app_cons, IH. }
  rewrite Hnil in Hl.
  assert (no_space w = true) as Hns
    by (by apply andb_true_iff in Hw as [_ ?]).
  destruct w as [|a w]; [done|].
  destruct n as [|n]; cbn [Str.split]; rewrite Hl; [done|].
  rewrite <- Hnil at 1. rewrite span_word_word by auto.
  by destruct n.
Qed.

Lemma split_word w r n :
  is_word w = true →
  Str.split (S n) (w +:+ " " +:+ r) = w :: Str.split n r.
Proof.
  intros Hw. cbn [Str.split]. rewrite lstrip_word by done.
  assert (no_space w = true) as Hns
    by (by apply andb_true_iff in Hw as [_ ?]).
  destruct (w +:+ " " +:+ r) as [|a s] eqn:E.
  { destruct w; [done|]. by rewrite app_cons in E. }
  rewrite <- E. rewrite span_word_word; [|done|right; by exists " "%char, r].
  f_equal. by destruct n.
Qed.

Lemma strip_between w s r :
  is_word w = true → is_word r = true →
  Str.strip (w +:+ s +:+ r) = w +:+ s +:+ r.
Proof.
  intros Hw Hr. unfold Str.strip. rewrite lstrip_word by done.
  rewrite <- string_app_assoc. by apply rstrip_app_word.
Qed.

Lemma is_word_b64encode data : data ≠ [] → is_word (Base64.b64encode data) = true.
Proof.
  intros Hd. apply andb_true_iff. split.
  - destruct data as [|a [|b [|c rest]]]; done.
  - pose proof (plain_b64encode data) as H.
    induction (Base64.b64encode data) as [|a s IH]; [done|]. cbn.
    apply andb_true_iff. split.
    + specialize (H a). cbn in H. destruct (decide _); [|done].
      by apply andb_true_iff in H as [_ H].
    + apply IH. intros c Hc. apply H. cbn. by destruct (decide _).
Qed.

Lemma parse_upload_command filename file_content :
  is_word filename = true → file_content ≠ [] →
  Server.parse (upload_command filename file_content)
  = ["UPLOAD"; filename; Base64.b64encode file_content].
Proof.
  intros Hf Hc. pose proof (is_word_b64encode _ Hc) as Ht.
  unfold Server.parse, upload_command.
  change ("UPLOAD " +:+ ?x) with ("UPLOAD" +:+ " " +:+ x).
  rewrite <- (string_app_assoc filename), <- (string_app_assoc " ").
  rewrite strip_between by done.
  rewrite !string_app_assoc.
  rewrite split_word, split_word, split_last by done. reflexivity.
Qed.


(** ** Upload, then download *)





(** ** Names and joined paths *)

Lemma is_name_inv n :
  is_name n = true →
  n ≠ EmptyString ∧ Str.contains Os.sep n = false ∧ Os.has_nul n = false
  ∧ n ≠ "." ∧ n ≠ "..".
Proof.
  unfold is_name. rewrite !andb_true_iff, !negb_true_iff, !bool_decide_eq_false.
  tauto.
Qed.

Lemma split_on_app sep s t :
  Str.split_on sep (s +:+ String sep t) = Str.split_on sep s ++ Str.split_on sep t.
Proof.
  induction s as [|a s IH].
  - rewrite app_empty. cbn. by destruct (decide _).
  - rewrite app_cons. cbn. rewrite IH. destruct (decide _); [done|].
    pose proof (split_on_nonempty sep s). by destruct (Str.split_on sep s).
Qed.

Lemma split_on_name sep n : Str.contains sep n = false → Str.split_on sep n = [n].
Proof.
  induction n as [|a n IH]; [done|]. cbn.
  destruct (decide (a = sep)); [done|]. intros H. by rewrite IH.
Qed.

Lemma contains_app c s t :
  Str.contains c (s +:+ t) = Str.contains c s || Str.contains c t.
Proof.
  induction s as [|a s IH]; [done|]. rewrite app_cons. cbn.
  by destruct (decide _).
Qed.

Lemma ends_with_sep_inv s :
  Os.ends_with_sep s = true → ∃ s', s = s' +:+ "/".
Proof.
  induction s as [|a s IH]; [done|]. cbn. destruct s as [|b s].
  - intros ->%bool_decide_eq_true. by exists EmptyString.
  - intros [s' ->]%IH. by exists (String a s').
Qed.

Lemma startswith_sep_app s t :
  s ≠ EmptyString → Str.startswith "/" (s +:+ t) = Str.startswith "/" s.
Proof. destruct s; [done|]. intros _. rewrite app_cons. reflexivity. Qed.

Lemma startswith_sep_name n :
  Str.contains Os.sep n = false → Str.startswith "/" n = false.
Proof.
  destruct n as [|a n]; [done|]. cbn.
  destruct (decide (a = Os.sep)) as [->|Ha]; [done|]. intros _.
  destruct (decide _) as [<-|]; done.
Qed.

Lemma walk_app_inv m cur l1 l2 p :
  Os.walk m cur (l1 ++ l2) = inl p →
  ∃ q, Os.walk m cur l1 = inl q ∧ Os.walk m q l2 = inl p.
Proof.
  revert cur. induction l1 as [|c l1 IH]; intros cur; cbn; [by eauto|].
  destruct (m !! cur) as [[|]|]; try done. apply IH.
Qed.

(** The components of [path_join base n], for a name [n], are those of
    a prefix of [base] that leads where [base] leads, and [n]. *)
Lemma components_join base n m cur p :
  is_name n = true → base ≠ EmptyString →
  Os.walk m cur (Os.components base) = inl p → m !! p = Some Dir →
  ∃ l, Os.components (Os.path_join base n) = l ++ [n]
       ∧ Os.walk m cur l = inl p
       ∧ (Forall (λ c, Os.has_nul c = false) (Os.components base) →
          Forall (λ c, Os.has_nul c = false) l).
Proof.
  intros (Hne & Hsep & _ & _ & _)%is_name_inv Hb Hw Hp.
  unfold Os.path_join, Os.components in *.
  rewrite (startswith_sep_name n) by done.
  destruct (bool_decide (base = EmptyString)) eqn:E;
    [by apply bool_decide_eq_true in E|]. cbn [orb].
  destruct (Os.ends_with_sep base) eqn:Hs.
  - apply ends_with_sep_inv in Hs as [s' ->].
    rewrite string_app_assoc. change ("/" +:+ n) with (String Os.sep n).
    change "/" with (String Os.sep EmptyString) in Hw |- *.
    rewrite split_on_app in Hw |- *. rewrite (split_on_name _ n) by done.
    change (Str.split_on Os.sep EmptyString) with [EmptyString] in *.
    exists (Str.split_on Os.sep s'). split; [done|].
    apply walk_app_inv in Hw as (q & Hq & Hw). split.
    + cbn in Hw. destruct (m !! q) as [[|]|]; try done.
      unfold Os.enter in Hw. destruct (decide _) as [|Hn]; [congruence|].
      exfalso. apply Hn. by left.
    + rewrite split_on_app. by intros [? _]%Forall_app.
  - change ("/" +:+ n) with (String Os.sep n).
    rewrite split_on_app, (split_on_name _ n) by done. eauto.
Qed.

Lemma has_nul_components_inv path :
  Os.has_nul path = false →
  Forall (λ c, Os.has_nul c = false) (Os.components path).
Proof.
  unfold Os.components, Os.has_nul.
  induction path as [|a s IH]; [by repeat constructor|]. cbn.
  destruct (decide (a = "000"%char)); [done|]. intros H.
  specialize (IH H). destruct (decide (a = Os.sep)).
  - by apply Forall_cons.
  - destruct (Str.split_on Os.sep s) as [|w ws] eqn:E;
      [by apply split_on_nonempty in E|].
    apply Forall_cons in IH as [Hw Hws]. apply Forall_cons. split; [|done].
    cbn. by destruct (decide _).
Qed.

Lemma enter_name cur n : is_name n = true → Os.enter cur n = n :: cur.
Proof.
  intros (Hne & _ & _ & Hd & Hdd)%is_name_inv. unfold Os.enter.
  destruct (decide _) as [[|]|]; [done..|]. by destruct (decide _).
Qed.

Lemma resolve_inv fs path p :
  Os.resolve fs path = Ok p →
  Os.has_nul path = false ∧ path ≠ EmptyString
  ∧ Os.walk (nodes fs) (Os.start_of fs path) (Os.components path) = inl p.
Proof.
  unfold Os.resolve. destruct (Os.has_nul path); [done|].
  destruct (decide _); [done|].
  destruct (Os.walk _ _ _) eqn:E; [|done]. by intros [= ->].
Qed.

Lemma path_join_facts base n :
  is_name n = true → base ≠ EmptyString → Os.has_nul base = false →
  Os.has_nul (Os.path_join base n) = false
  ∧ Os.path_join base n ≠ EmptyString
  ∧ Str.startswith "/" (Os.path_join base n) = Str.startswith "/" base.
Proof.
  intros (Hne & Hsep & Hnul & _ & _)%is_name_inv Hb Hbn. unfold Os.path_join.
  rewrite (startswith_sep_name n) by done.
  assert (∀ t, base +:+ t ≠ EmptyString) as Hnonempty.
  { intros t. destruct base; [done|]. by rewrite app_cons. }
  unfold Os.has_nul in *.
  destruct (_ || _); rewrite !contains_app, ?Hbn, ?Hnul, ?startswith_sep_app by done;
    done.
Qed.

(** Joining a name to a path that leads to a directory leads to the
    entry of that name. *)
Lemma resolve_join fs base n p :
  is_name n = true →
  Os.resolve fs base = Ok p → nodes fs !! p = Some Dir →
  Os.resolve fs (Os.path_join base n) = Ok (n :: p).
Proof.
  intros Hn (Hnul & Hb & Hw)%resolve_inv Hp.
  destruct (path_join_facts base n) as (Hjn & Hje & Hjs); [done..|].
  destruct (components_join base n _ _ _ Hn Hb Hw Hp) as (l & Hl & Hwl & _).
  unfold Os.resolve, Os.start_of in *. rewrite Hjn, Hjs.
  destruct (decide _); [done|].
  rewrite Hl, (walk_app _ _ _ _ _ Hwl). cbn. rewrite Hp.
  by rewrite enter_name.
Qed.

Lemma mkdirs_prefix m p rest :
  m !! p = Some Dir → Os.all_empty rest = false →
  ∀ l cur, Os.walk m cur l = inl p →
  Forall (λ c, Os.has_nul c = false) l →
  Os.mkdirs m cur (l ++ rest) = Os.mkdirs m p rest.
Proof.
  intros Hp Hrest. induction l as [|c l IH]; intros cur Hw Hf.
  - cbn in Hw. by injection Hw as ->.
  - apply Forall_cons in Hf as [Hc Hf]. cbn in Hw |- *. rewrite Hc.
    destruct (m !! cur) as [[|]|]; try done.
    assert (Os.all_empty (l ++ rest) = false) as ->.
    { unfold Os.all_empty in *. by rewrite forallb_app, Hrest, andb_false_r. }
    assert (m !! Os.enter cur c = Some Dir) as ->; [|by apply IH].
    destruct l as [|c' l]; cbn in Hw; [congruence|].
    by destruct (m !! Os.enter cur c) as [[|]|].
Qed.

Lemma with_nodes_id fs : with_nodes fs (nodes fs) = fs.
Proof. by destruct fs. Qed.

(** [_get_user_dir] for a user whose name is a name, in a storage
    directory that exists: the user's directory is created when it is
    missing, and nothing else changes. *)
Lemma get_user_dir_name srv fs user ps :
  is_name user = true →
  Os.resolve fs (storage_dir srv) = Ok ps → nodes fs !! ps = Some Dir →
  (∀ content, nodes fs !! (user :: ps) ≠ Some (File content)) →
  Server._get_user_dir srv fs user
  = (with_nodes fs (<[user :: ps := Dir]> (nodes fs)),
     Ok (Os.path_join (storage_dir srv) user)).
Proof.
  intros Hn Hr Hp Hfile.
  pose proof (resolve_join _ _ _ _ Hn Hr Hp) as Hj.
  unfold Server._get_user_dir, Os.path_exists, Os.stat. rewrite Hj.
  destruct (nodes fs !! (user :: ps)) as [[content|]|] eqn:Hu.
  - by destruct (Hfile content).
  - cbn [negb]. by rewrite insert_id, with_nodes_id.
  - cbn [negb]. unfold Os.makedirs, Os.path_exists, Os.stat. rewrite Hj, Hu.
    apply resolve_inv in Hr as (Hnul & Hb & Hw).
    destruct (path_join_facts (storage_dir srv) user) as (Hjn & Hje & Hjs);
      [done..|].
    destruct (decide _); [done|].
    destruct (components_join _ user _ _ _ Hn Hb Hw Hp) as (l & -> & Hwl & Hf).
    unfold Os.start_of in *. rewrite Hjs.
    rewrite (mkdirs_prefix _ ps [user]); try done; cycle 1.
    { cbn. apply is_name_inv in Hn as (Hne & _). rewrite andb_true_r.
      by apply bool_decide_eq_false. }
    { by apply Hf, has_nul_components_inv. }
    cbn. apply is_name_inv in Hn as Hn'. destruct Hn' as (_ & _ & -> & Hd & _).
    rewrite Hp. destruct (decide _); [done|].
    by rewrite enter_name, Hu.
Qed.

(** ** Namespaces *)



Lemma entry_not_dir (f : string) (d : list string) : d ≠ f :: d.
Proof. intros E. apply (f_equal length) in E. cbn in E. lia. Qed.

Lemma elem_of_entries m d n :
  n ∈ Os.entries m d ↔ is_Some (m !! (n :: d)).
Proof.
  unfold Os.entries. rewrite list_elem_of_omap. split.
  - intros ([k x] & Hin & Hf). apply elem_of_map_to_list in Hin. cbn in Hf.
    destruct k as [|name d']; [done|].
    destruct (decide (d' = d)) as [->|]; [|done]. injection Hf as ->. eauto.
  - intros [x Hx]. exists (n :: d, x). split; [by apply elem_of_map_to_list|].
    cbn. by destruct (decide _).
Qed.

(** The state [_get_user_dir] leaves, seen from the user's directory. *)
Lemma user_dir_ready srv fs user ps :
  is_name user = true →
  Os.resolve fs (storage_dir srv) = Ok ps → nodes fs !! ps = Some Dir →
  let fs1 := with_nodes fs (<[user :: ps := Dir]> (nodes fs)) in
  (∀ f, is_name f = true →
        Os.resolve fs1 (Os.path_join (Os.path_join (storage_dir srv) user) f)
        = Ok (f :: user :: ps))
  ∧ Os.resolve fs1 (Os.path_join (storage_dir srv) user) = Ok (user :: ps)
  ∧ (∀ f, nodes fs1 !! (f :: user :: ps) = nodes fs !! (f :: user :: ps))
  ∧ nodes fs1 !! (user :: ps) = Some Dir.
Proof.
  intros Hn Hr Hp fs1.
  assert (dirs_kept (nodes fs) (nodes fs1)) as Hk.
  { intros p Hd. subst fs1. cbn. destruct (decide (user :: ps = p)) as [<-|].
    - by rewrite lookup_insert_eq.
    - by rewrite lookup_insert_ne. }
  assert (Os.resolve fs1 (storage_dir srv) = Ok ps) as Hr1
    by by apply (resolve_kept fs fs1).
  assert (nodes fs1 !! (user :: ps) = Some Dir) as Hu
    by (subst fs1; cbn; by rewrite lookup_insert_eq).
  assert (Os.resolve fs1 (Os.path_join (storage_dir srv) user) = Ok (user :: ps))
    as Hud by (apply resolve_join; auto).
  repeat split; [|done| |done].
  - intros f Hf. by apply resolve_join.
  - intros f. subst fs1. cbn. rewrite lookup_insert_ne; [done|].
    apply entry_not_dir.
Qed.

Section Isolation.

Variables (srv : FileServer) (fs : filesystem) (A B : string) (ps : list string).
Hypothesis HA : is_name A = true.
Hypothesis HAB : A ≠ B.
Hypothesis Hstorage : Os.resolve fs (storage_dir srv) = Ok ps.
Hypothesis Hdir : nodes fs !! ps = Some Dir.
Hypothesis Hnofile : ∀ content, nodes fs !! (A :: ps) ≠ Some (File content).

(** The file system after [_get_user_dir]. *)
Let fs1 := with_nodes fs (<[A :: ps := Dir]> (nodes fs)).



Lemma delete_own filename parts :
  is_name filename = true → length parts = 2 →
  Server.item parts 1 = filename →
  Server.delete srv fs A parts
  = match nodes fs !! (filename :: A :: ps) with
    | None => (fs1, Send "ERROR File not found")
    | Some (File content) =>
        (with_nodes fs1 (delete (filename :: A :: ps) (nodes fs1)),
         Send "OK File deleted")
    | Some Dir =>
        (fs1, Send ("ERROR Delete failed: "
                    +:+ str_exn (OSError EISDIR
                          (Os.path_join (Os.path_join (storage_dir srv) A) filename))))
    end.
Proof.
  intros Hf Hl Hi. unfold Server.delete.
  destruct (decide _); [done|]. rewrite Hi.
  rewrite (get_user_dir_name _ _ _ ps) by done. fold fs1.
  destruct (user_dir_ready srv fs A ps HA Hstorage Hdir) as (Hres & _ & Hlook & _).
  fold fs1 in Hres, Hlook.
  unfold Os.remove, Os.stat. rewrite Hres, Hlook by done.
  by destruct (nodes fs !! (filename :: A :: ps)) as [[|]|].
Qed.

Lemma list_own :
  ∃ names,
    Server.list_files srv fs A = (fs1, Send ("OK " +:+ Json.dumps names))
    ∧ ∀ n, n ∈ names ↔ is_Some (nodes fs !! (n :: A :: ps)).
Proof.
  unfold Server.list_files.
  rewrite (get_user_dir_name _ _ _ ps) by done. fold fs1.
  destruct (user_dir_ready srv fs A ps HA Hstorage Hdir) as (_ & Hres & Hlook & Hud).
  fold fs1 in Hres, Hlook, Hud.
  unfold Os.listdir, Os.stat. rewrite Hres, Hud.
  eexists. split; [reflexivity|].
  intros n. by rewrite elem_of_entries, Hlook.
Qed.

End Isolation.




(** ** The client's failover *)

Lemma round_step cur n j : ((cur + 1) mod n + j) mod n = (cur + S j) mod n.
Proof.
  rewrite Nat.Div0.add_mod_idemp_l. f_equal. lia.
Qed.

Lemma connect_loop_spec accepts remaining :
  ∀ c, Client.current_node c < length (Client.nodes c) →
  let n := length (Client.nodes c) in
  let round j := (Client.current_node c + j) mod n in
  ∃ c' r tried,
    Client.connect_loop accepts remaining c = (c', r, tried)
    ∧ Client.nodes c' = Client.nodes c
    ∧ ((∃ k, k < remaining ∧ r = Ok true
             ∧ Client.accepting accepts (Client.nodes c) (round k) = true
             ∧ (∀ j, j < k → Client.accepting accepts (Client.nodes c) (round j) = false)
             ∧ tried = round <$> seq 0 (S k)
             ∧ Client.current_node c' = round k)
       ∨ (r = Ok false
          ∧ (∀ j, j < remaining →
                  Client.accepting accepts (Client.nodes c) (round j) = false)
          ∧ tried = round <$> seq 0 remaining
          ∧ Client.current_node c' = round remaining)).
Proof.
  induction remaining as [|remaining IH]; intros c Hcur n round.
  - exists c, (Ok false), []. split_and!; [done..|]. right. split_and!; [done| |done|].
    + intros j Hj. lia.
    + subst round n. cbn. rewrite Nat.add_0_r. by rewrite Nat.mod_small.
  - assert (round 0 = Client.current_node c) as Hr0.
    { subst round n. cbn. rewrite Nat.add_0_r. by apply Nat.mod_small. }
    cbn [Client.connect_loop].
    destruct (Client.nodes c !! Client.current_node c) as [node|] eqn:Hnode;
      cycle 1.
    { apply lookup_ge_None in Hnode. lia. }
    destruct (accepts node) eqn:Hacc.
    + eexists _, _, _. split; [reflexivity|]. split; [done|].
      left. exists 0. split_and!; [lia|done| | |by cbn; rewrite Hr0|by rewrite Hr0].
      * rewrite Hr0. unfold Client.accepting. by rewrite Hnode.
      * intros; lia.
    + set (c1 := Client.Build_FileClient _ _ _ _ _).
      destruct (IH c1) as (c' & r & tried & -> & Hn & Hcases).
      { cbn. apply Nat.mod_upper_bound. lia. }
      cbn [Client.nodes Client.current_node c1] in Hn, Hcases.
      fold n in Hcases.
      eexists _, _, _. split; [reflexivity|]. split; [done|].
      assert (Client.accepting accepts (Client.nodes c) (round 0) = false) as H0.
      { rewrite Hr0. unfold Client.accepting. by rewrite Hnode. }
      assert (∀ l, Client.current_node c
                   :: ((λ j, ((Client.current_node c + 1) mod n + j) mod n) <$> l)
                   = round <$> (0 :: (S <$> l))) as Hmap.
      { intros l. cbn. rewrite Hr0. f_equal. rewrite <- list_fmap_compose.
        apply list_fmap_ext. intros ? j _. cbn. apply round_step. }
      destruct Hcases as [(k & Hk & -> & Ha & Hb & -> & Hc)|(-> & Hb & -> & Hc)].
      * left. exists (S k). rewrite round_step in Ha, Hc.
        split_and!; [lia|done|done| |by rewrite Hmap, fmap_S_seq|done].
        intros [|j] Hj; [done|]. subst round. cbn beta.
        rewrite <- round_step. apply Hb. lia.
      * right. rewrite round_step in Hc.
        split_and!; [done| |by rewrite Hmap, fmap_S_seq|done].
        intros [|j] Hj; [done|]. subst round. cbn beta.
        rewrite <- round_step. apply Hb. lia.
Qed.

(** One round over the endpoints, from any start, meets every index
    once. *)
Lemma round_permutation cur n :
  cur < n → (λ j, (cur + j) mod n) <$> seq 0 n ≡ₚ seq 0 n.
Proof.
  intros Hcur. set (round := λ j, (cur + j) mod n).
  assert (seq 0 n = seq 0 (n - cur) ++ seq (n - cur) cur) as Hsplit.
  { transitivity (seq 0 ((n - cur) + cur)); [f_equal; lia|by rewrite seq_app]. }
  assert (seq 0 n = seq 0 cur ++ seq cur (n - cur)) as Hsplit'.
  { transitivity (seq 0 (cur + (n - cur))); [f_equal; lia|by rewrite seq_app]. }
  rewrite Hsplit at 1. rewrite Hsplit', fmap_app.
  assert (round <$> seq 0 (n - cur) = seq cur (n - cur)) as ->.
  { rewrite <- (Nat.add_0_r cur) at 2. rewrite <- fmap_add_seq.
    apply list_fmap_ext. intros i j Hj.
    apply list_elem_of_lookup_2, elem_of_seq in Hj. apply Nat.mod_small. lia. }
  assert (round <$> seq (n - cur) cur = seq 0 cur) as ->.
  { rewrite <- (Nat.add_0_r (n - cur)), <- fmap_add_seq, <- list_fmap_compose.
    rewrite <- (list_fmap_id (seq 0 cur)) at 2.
    apply list_fmap_ext. intros i j Hj.
    apply list_elem_of_lookup_2, elem_of_seq in Hj. subst round. cbn.
    replace (cur + (n - cur + j)) with (j + 1 * n) by lia.
    rewrite Nat.Div0.mod_add. apply Nat.mod_small. lia. }
  apply Permutation_app_comm.
Qed.

(** C8: [_connect_to_next_node] tries the endpoints from the current
    index on, one index further (modulo the number of endpoints) after
    every failure; it stops at the first endpoint that accepts and keeps
    its index, and it reports failure when every endpoint was tried once
    and none accepted. *)
Theorem connect_round_robin accepts c :
  Client.nodes c ≠ [] →
  Client.current_node c < length (Client.nodes c) →
  let n := length (Client.nodes c) in
  let round j := (Client.current_node c + j) mod n in
  ∃ c' r tried,
    Client._connect_to_next_node accepts c = (c', r, tried)
    ∧ Client.nodes c' = Client.nodes c
    ∧ Client.current_node c' < n
    ∧ ((∃ k, k < n ∧ r = Ok true
             ∧ Client.accepting accepts (Client.nodes c) (round k) = true
             ∧ (∀ j, j < k → Client.accepting accepts (Client.nodes c) (round j) = false)
             ∧ tried = round <$> seq 0 (S k)
             ∧ Client.current_node c' = round k)
       ∨ (r = Ok false
          ∧ (∀ i, i < n → Client.accepting accepts (Client.nodes c) i = false)
          ∧ tried = round <$> seq 0 n
          ∧ tried ≡ₚ seq 0 n
          ∧ Client.current_node c' = Client.current_node c)).
Proof.
  intros Hne Hcur n round. unfold Client._connect_to_next_node.
  set (c1 := match Client.session c with Some _ => _ | None => c end).
  assert (Client.nodes c1 = Client.nodes c ∧ Client.current_node c1 = Client.current_node c)
    as [Hn1 Hc1] by (subst c1; by destruct (Client.session c)).
  destruct (connect_loop_spec accepts (length (Client.nodes c1)) c1)
    as (c' & r & tried & Hloop & Hn & Hcases); [by rewrite Hn1, Hc1|].
  rewrite Hn1, Hc1 in Hcases. rewrite Hn1 in Hn. fold n round in Hcases.
  exists c', r, tried. split; [done|]. split; [done|].
  assert (∀ j, round j < n) as Hround.
  { intros j. subst round. apply Nat.mod_upper_bound. lia. }
  destruct Hcases as [(k & Hk & -> & Ha & Hb & -> & Hc)|(-> & Hb & -> & Hc)].
  - split; [rewrite Hc; apply Hround|]. left. exists k. by split_and!.
  - pose proof (round_permutation _ _ Hcur) as Hperm. fold n round in Hperm.
    assert (Client.current_node c' = Client.current_node c) as Hc'.
    { rewrite Hc. subst round. cbn beta.
      replace (Client.current_node c + n) with (Client.current_node c + 1 * n) by lia.
      rewrite Nat.Div0.mod_add. by apply Nat.mod_small. }
    split; [by rewrite Hc'|]. right. split_and!; [done| |done|done|done].
    intros i Hi.
    assert (i ∈ round <$> seq 0 n) as Hin by (rewrite Hperm; apply elem_of_seq; lia).
    apply list_elem_of_fmap in Hin as (j & -> & Hj). apply Hb.
    apply elem_of_seq in Hj. lia.
Qed.

Lemma connect_round_robin_witness :
  ∃ c' tried,
    Client._connect_to_next_node (λ e, bool_decide (e.2 = 8081%N))
      (Client.init [("deadhost", 8080%N); ("localhost", 8081%N)])
    = (c', Ok true, tried)
    ∧ tried = [0; 1] ∧ Client.current_node c' = 1.
Proof.
  destruct (connect_round_robin (λ e, bool_decide (e.2 = 8081%N))
              (Client.init [("deadhost", 8080%N); ("localhost", 8081%N)]))
    as (c' & r & tried & Hrun & _); [discriminate|cbn; lia|].
  exists c', tried. vm_compute in Hrun. injection Hrun as <- <- <-.
  vm_compute. done.
Defined.

(** ** The client's authenticated flag *)

Lemma connect_loop_authenticated accepts remaining :
  ∀ c, Client.authenticated (Client.connect_loop accepts remaining c).1.1
       = Client.authenticated c.
Proof.
  induction remaining as [|remaining IH]; intros c; [done|]. cbn.
  destruct (Client.nodes c !! Client.current_node c); [|done].
  destruct (accepts e); [done|].
  specialize (IH (Client.Build_FileClient (Client.nodes c)
                    ((Client.current_node c + 1) mod length (Client.nodes c))
                    (Some (Client.Socket (Client.created c) (Client.current_node c) false))
                    (Client.authenticated c) (S (Client.created c)))).
  by destruct (Client.connect_loop _ _ _) as [[? ?] ?].
Qed.

(** Sending a command never clears the flag: the reset in
    [_connect_to_next_node] is guarded by [if self.session], and
    [_ensure_connected] only reconnects when [self.session] is [None]. *)
Lemma send_command_keeps_flag accepts c command net :
  Client.authenticated (Client._send_command accepts c command net).1.1
  = Client.authenticated c.
Proof.
  unfold Client._send_command, Client._ensure_connected.
  destruct (Client.session c) as [s|] eqn:Hs.
  - rewrite Hs. destruct (Client.connected s); [|done]. by destruct net.
  - unfold Client._connect_to_next_node. rewrite Hs.
    pose proof (connect_loop_authenticated accepts (length (Client.nodes c)) c) as H.
    destruct (Client.connect_loop _ _ _) as [[c1 r] tried]. cbn in H.
    destruct r as [[|]|]; [|done..].
    destruct (Client.session c1) as [s|]; [|done].
    destruct (Client.connected s); [|done]. by destruct net.
Qed.

(** C3 fails on the code: the client authenticates on its first
    socket, a send fails, and the next command goes out on a new socket
    with the flag still set, answered as the server answers an
    unauthenticated connection. *)
Theorem flag_survives_reconnect :
  let accepts : Client.endpoint → bool := λ _, true in
  let answer text :=
    match (Server.handle_command demo_server demo_fs None text).2 with
    | Send response => Client.Response response
    | _ => Client.RecvFails
    end in
  let c0 := Client.init [("localhost", 8080%N)] in
  let '(c1, ok1, on1) :=
    Client.authenticate accepts c0 "alice" "secret123"
      (Client.Response "OK Authenticated") in
  let '(c2, ok2, on2) := Client.delete_file accepts c1 "notes.txt" Client.SendFails in
  let '(c3, ok3, on3) :=
    Client.delete_file accepts c2 "notes.txt" (answer "DELETE notes.txt") in
  (ok1 = true ∧ on1 = Some (Client.Socket 0 0 true))
  ∧ (ok2 = false ∧ Client.session c2 = None ∧ Client.authenticated c2 = true)
  ∧ (answer "DELETE notes.txt" = Client.Response "ERROR Authentication required"
     ∧ ok3 = false ∧ on3 = Some (Client.Socket 1 0 true)
     ∧ Client.session c3 = Some (Client.Socket 1 0 true)
     ∧ Client.authenticated c3 = true).
Proof. vm_compute. done. Qed.

(** * Further properties *)

(** ** The parts of a command line *)

Lemma lstrip_head s :
  Str.lstrip s = EmptyString
  ∨ ∃ c s', Str.lstrip s = String c s' ∧ Str.isspace c = false.
Proof.
  induction s as [|a s IH]; [by left|]. cbn.
  destruct (Str.isspace a) eqn:E; [done|]. right. by exists a, s.
Qed.

Lemma lstrip_fixed c s : Str.isspace c = false → Str.lstrip (String c s) = String c s.
Proof. intros H. cbn. by rewrite H. Qed.

Lemma rstrip_head c s :
  Str.isspace c = false → Str.rstrip (String c s) = String c (Str.rstrip s).
Proof. intros H. cbn. rewrite H. by destruct (Str.rstrip s). Qed.

(** What [strip] returns has no whitespace in front. *)
Lemma lstrip_strip text : Str.lstrip (Str.strip text) = Str.strip text.
Proof.
  unfold Str.strip. destruct (lstrip_head text) as [->|(c & s & -> & Hc)]; [done|].
  rewrite rstrip_head by done. by apply lstrip_fixed.
Qed.

Lemma span_word_spec s w r :
  Str.span_word s = (w, r) →
  s = w +:+ r ∧ no_space w = true
  ∧ (r = EmptyString ∨ ∃ c r', r = String c r' ∧ Str.isspace c = true).
Proof.
  revert w r. induction s as [|a s IH]; intros w r; cbn.
  - intros [= <- <-]. auto.
  - destruct (Str.isspace a) eqn:Ha.
    + intros [= <- <-]. split_and!; [done..|]. right. by exists a, s.
    + destruct (Str.span_word s) as [w' r'] eqn:E. intros [= <- <-].
      destruct (IH w' r' eq_refl) as (-> & Hw & Hr).
      split_and!; [done| |done]. cbn. by rewrite Ha.
Qed.

(** [split(maxsplit=n)] yields at most [n + 1] items; none is empty or
    starts with whitespace, and only the last one can hold whitespace. *)
Lemma split_shape n :
  ∀ s, length (Str.split n s) ≤ S n
       ∧ Forall (λ p, p ≠ EmptyString ∧ Str.lstrip p = p) (Str.split n s)
       ∧ Forall (λ p, no_space p = true) (take n (Str.split n s)).
Proof.
  induction n as [|n IH]; intros s; cbn [Str.split].
  - destruct (lstrip_head s) as [->|(c & s' & -> & Hc)]; cbn.
    + split_and!; [lia|done..].
    + split_and!; [lia| |done]. apply Forall_singleton.
      split; [done|]. by apply lstrip_fixed.
  - destruct (lstrip_head s) as [->|(c & s' & -> & Hc)].
    + cbn. split_and!; [lia|done..].
    + destruct (Str.span_word (String c s')) as [w r] eqn:E.
      pose proof (span_word_spec _ _ _ E) as (Hs & Hw & _).
      destruct (IH r) as (Hl & Hf & Hn).
      assert (w ≠ EmptyString ∧ Str.lstrip w = w) as Hw'.
      { cbn in E. rewrite Hc in E. destruct (Str.span_word s') as [w' r'].
        injection E as <- <-. split; [done|]. by apply lstrip_fixed. }
      cbn [length take]. split_and!; [lia|by apply Forall_cons|by apply Forall_cons].
Qed.

Lemma split_nil n s : Str.split n s = [] ↔ Str.lstrip s = EmptyString.
Proof.
  destruct n; cbn [Str.split]; destruct (Str.lstrip s) eqn:E; split; try done.
  by destruct (Str.span_word _).
Qed.

(** X1: the parts of a received text ([command.split(maxsplit=2)] of the
    stripped text) are at most three, none is empty or starts with
    whitespace, the first two hold no whitespace, and there is no part
    only when the stripped text is empty. *)
Theorem parse_shape text :
  length (Server.parse text) ≤ 3
  ∧ Forall (λ p, p ≠ EmptyString ∧ Str.lstrip p = p) (Server.parse text)
  ∧ Forall (λ p, no_space p = true) (take 2 (Server.parse text))
  ∧ (Server.parse text = [] ↔ Str.strip text = EmptyString).
Proof.
  unfold Server.parse. destruct (split_shape 2 (Str.strip text)) as (Hl & Hf & Hn).
  split_and!; [done..|]. by rewrite split_nil, lstrip_strip.
Qed.

(** ** The replies of the server *)

Ltac in_list :=
  solve [repeat first [apply list_elem_of_here | apply list_elem_of_further]].

Ltac fixed_reply := left; unfold fixed_replies; in_list.

Ltac prefixed_reply :=
  right; eexists _, _; split; cycle 1;
  [reflexivity|unfold reply_prefixes; in_list].

Lemma upload_replies srv fs user parts fs' r :
  Server.upload srv fs user parts = (fs', Send r) → protocol_reply r.
Proof.
  unfold Server.upload. destruct (decide _); [intros [= <- <-]; fixed_reply|].
  destruct (Base64.b64decode _); [|intros [= <- <-]; prefixed_reply].
  destruct (Server._get_user_dir _ _ _) as [fs1 [d|e]];
    [|intros [= <- <-]; prefixed_reply].
  destruct (Os.write_file _ _ _); intros [= <- <-]; [fixed_reply|prefixed_reply].
Qed.

Lemma download_replies srv fs user parts fs' r :
  Server.download srv fs user parts = (fs', Send r) → protocol_reply r.
Proof.
  unfold Server.download. destruct (decide _); [intros [= <- <-]; fixed_reply|].
  destruct (Server._get_user_dir _ _ _) as [fs1 [d|e]]; [|done].
  destruct (Os.read_file _ _) as [content|[| |[] ?]]; intros [= <- <-];
    (fixed_reply || prefixed_reply).
Qed.

Lemma delete_replies srv fs user parts fs' r :
  Server.delete srv fs user parts = (fs', Send r) → protocol_reply r.
Proof.
  unfold Server.delete. destruct (decide _); [intros [= <- <-]; fixed_reply|].
  destruct (Server._get_user_dir _ _ _) as [fs1 [d|e]]; [|done].
  destruct (Os.remove _ _) as [fs2|[| |[] ?]]; intros [= <- <-];
    (fixed_reply || prefixed_reply).
Qed.

Lemma list_replies srv fs user fs' r :
  Server.list_files srv fs user = (fs', Send r) → protocol_reply r.
Proof.
  unfold Server.list_files.
  destruct (Server._get_user_dir _ _ _) as [fs1 [d|e]];
    [|intros [= <- <-]; prefixed_reply].
  destruct (Os.listdir _ _); intros [= <- <-]; prefixed_reply.
Qed.

Lemma auth_replies srv u parts u' r :
  Server.auth srv u parts = (u', Send r) → protocol_reply r.
Proof.
  unfold Server.auth. destruct (decide _); [intros [= <- <-]; fixed_reply|].
  destruct (users srv !! _); [|intros [= <- <-]; fixed_reply].
  destruct (decide _); intros [= <- <-]; fixed_reply.
Qed.

(** Every response is one of the response lines. *)
Lemma handle_command_replies srv fs u text r :
  (Server.handle_command srv fs u text).2 = Send r → protocol_reply r.
Proof.
  unfold Server.handle_command.
  destruct (decide (Str.strip text = _)) as [|Hne]; [done|].
  destruct (decide (Str.split 2 (Str.strip text) = [])) as [E|_].
  { exfalso. apply Hne. apply split_nil in E. by rewrite lstrip_strip in E. }
  destruct (decide (_ = "AUTH")).
  { destruct (Server.auth _ _ _) as [u' a] eqn:E. cbn. intros ->.
    by eapply auth_replies. }
  destruct u as [user|]; [|intros [= <-]; fixed_reply].
  destruct (decide _).
  { destruct (Server.upload _ _ _ _) as [fs' a] eqn:E. cbn. intros ->.
    by eapply upload_replies. }
  destruct (decide _).
  { destruct (Server.download _ _ _ _) as [fs' a] eqn:E. cbn. intros ->.
    by eapply download_replies. }
  destruct (decide _).
  { destruct (Server.delete _ _ _ _) as [fs' a] eqn:E. cbn. intros ->.
    by eapply delete_replies. }
  destruct (decide _).
  { destruct (Server.list_files _ _ _) as [fs' a] eqn:E. cbn. intros ->.
    by eapply list_replies. }
  intros [= <-]. fixed_reply.
Qed.

Lemma startswith_app p x : Str.startswith p (p +:+ x) = true.
Proof.
  induction p as [|a p IH]; [done|]. rewrite app_cons. cbn.
  by destruct (decide _).
Qed.

Lemma protocol_reply_bool r : protocol_reply r → is_protocol_reply r = true.
Proof.
  unfold is_protocol_reply. intros [Hr|(prefix & x & Hp & ->)].
  - by rewrite bool_decide_eq_true_2.
  - apply orb_true_iff. right. apply existsb_exists. exists prefix.
    split; [by apply list_elem_of_In|apply startswith_app].
Qed.

(** X2: the server never sends [ERROR Invalid command format]: a text
    that is not empty once stripped always has a first part, so the
    branch [if not parts] cannot be reached. *)
Theorem invalid_command_format_never_sent srv fs u text :
  (Server.handle_command srv fs u text).2 ≠ Send "ERROR Invalid command format".
Proof.
  intros H. apply handle_command_replies, protocol_reply_bool in H.
  vm_compute in H. discriminate.
Qed.

Ltac each_member H :=
  repeat (apply elem_of_cons in H as [->|H]; [|]); [..|by apply elem_of_nil in H].

(** X3: every response starts with [OK ] or with [ERROR ], and the test
    the client applies to a response ([response and
    response.startswith("OK")]) holds exactly for those that start with
    [OK ]. *)
Theorem reply_starts_ok_or_error srv fs u text r :
  (Server.handle_command srv fs u text).2 = Send r →
  (Str.startswith "OK " r = true ∨ Str.startswith "ERROR " r = true)
  ∧ Client.is_ok (Some r) = Str.startswith "OK " r.
Proof.
  intros H. apply handle_command_replies in H.
  destruct H as [H|(prefix & x & H & ->)].
  - unfold fixed_replies in H. each_member H; vm_compute; auto.
  - unfold reply_prefixes in H. each_member H; split; try (by left); try (by right);
      reflexivity.
Qed.

Lemma reply_starts_ok_or_error_witness :
  Str.startswith "ERROR " "ERROR Authentication required" = true
  ∧ Client.is_ok (Some "ERROR Authentication required") = false.
Proof.
  destruct (reply_starts_ok_or_error demo_server demo_fs None "LIST"
              "ERROR Authentication required") as [[H|H] H'].
  - vm_compute. reflexivity.
  - vm_compute in H. discriminate.
  - split; [exact H|]. rewrite H'. vm_compute. reflexivity.
Defined.

(** ** Texts without a command *)

Lemma all_space_lstrip s : all_space s = true ↔ Str.lstrip s = EmptyString.
Proof.
  induction s as [|a s IH]; [done|]. cbn.
  destruct (Str.isspace a); [by rewrite andb_true_l|]. done.
Qed.







(** ** Verbs and arities *)

(** X5: the verb is matched without regard to case: two texts whose
    first parts have the same upper-case form, and whose other parts are
    the same, are handled alike. *)
Theorem verb_case_insensitive srv fs u text text' v v' args :
  Server.parse text = v :: args →
  Server.parse text' = v' :: args →
  Str.upper v = Str.upper v' →
  Server.handle_command srv fs u text = Server.handle_command srv fs u text'.
Proof.
  intros Hp Hp' Hv.
  rewrite !handle_command_parts by congruence. cbn zeta.
  unfold Server.verb. rewrite Hp, Hp'.
  change (Server.item (v :: args) 0) with v.
  change (Server.item (v' :: args) 0) with v'.
  rewrite Hv. reflexivity.
Qed.

Lemma verb_case_insensitive_witness :
  Server.handle_command demo_server demo_fs (Some "alice") "list"
  = Server.handle_command demo_server demo_fs (Some "alice") "LiSt".
Proof.
  apply (verb_case_insensitive demo_server demo_fs (Some "alice") "list" "LiSt"
           "list" "LiSt" []); vm_compute; reflexivity.
Defined.

(** X6: a command with the wrong number of arguments, or with an
    unknown verb, is refused with the error line of its branch, and
    neither the storage nor the connection changes. *)
Theorem malformed_command_refused srv fs u user text v args :
  Server.parse text = v :: args →
  (Str.upper v = "AUTH" → length args ≠ 2 →
   Server.handle_command srv fs u text
   = (fs, u, Send "ERROR Invalid auth command"))
  ∧ (Str.upper v = "UPLOAD" → length args < 2 →
     Server.handle_command srv fs (Some user) text
     = (fs, Some user, Send "ERROR Invalid upload command"))
  ∧ (Str.upper v = "DOWNLOAD" → length args ≠ 1 →
     Server.handle_command srv fs (Some user) text
     = (fs, Some user, Send "ERROR Invalid download command"))
  ∧ (Str.upper v = "DELETE" → length args ≠ 1 →
     Server.handle_command srv fs (Some user) text
     = (fs, Some user, Send "ERROR Invalid delete command"))
  ∧ (Str.upper v ∉ ["AUTH"; "UPLOAD"; "DOWNLOAD"; "DELETE"; "LIST"] →
     Server.handle_command srv fs (Some user) text
     = (fs, Some user, Send "ERROR Unknown command")).
Proof.
  intros Hp.
  assert (Hne : Server.parse text ≠ []) by (by rewrite Hp).
  split_and!.
  - intros Hv Hl. rewrite handle_command_parts by done. cbn zeta.
    unfold Server.verb. rewrite Hp. change (Server.item (v :: args) 0) with v.
    rewrite Hv. destruct (decide _); [|done]. unfold Server.auth.
    destruct (decide _) as [|Hn]; [done|]. cbn in Hn. lia.
  - intros Hv Hl. rewrite (handle_command_verb _ _ _ _ _ "UPLOAD" Hp) by done.
    destruct (decide _); [done|]. destruct (decide _); [|done].
    unfold Server.upload. destruct (decide _) as [|Hn]; [done|]. cbn in Hn. lia.
  - intros Hv Hl. rewrite (handle_command_verb _ _ _ _ _ "DOWNLOAD" Hp) by done.
    repeat (destruct (decide _); [done|]). destruct (decide _); [|done].
    unfold Server.download. destruct (decide _) as [|Hn]; [done|]. cbn in Hn. lia.
  - intros Hv Hl. rewrite (handle_command_verb _ _ _ _ _ "DELETE" Hp) by done.
    repeat (destruct (decide _); [done|]). destruct (decide _); [|done].
    unfold Server.delete. destruct (decide _) as [|Hn]; [done|]. cbn in Hn. lia.
  - intros Hv.
    rewrite (handle_command_verb _ _ _ _ _ (Str.upper v) Hp) by done.
    repeat (destruct (decide _) as [E|_]; [exfalso; apply Hv; rewrite E; set_solver|]).
    done.
Qed.

Lemma malformed_command_refused_witness :
  Server.handle_command demo_server demo_fs (Some "alice") "DOWNLOAD my notes.txt"
  = (demo_fs, Some "alice", Send "ERROR Invalid download command").
Proof.
  refine (proj1 (proj2 (proj2 (malformed_command_refused demo_server demo_fs None
            "alice" "DOWNLOAD my notes.txt" "DOWNLOAD" ["my"; "notes.txt"] _))) _ _).
  - vm_compute. reflexivity.
  - vm_compute. reflexivity.
  - cbn. lia.
Defined.

(** ** What the commands do to the storage *)

Lemma get_user_dir_grows srv fs user :
  cwd (Server._get_user_dir srv fs user).1 = cwd fs
  ∧ nodes fs ⊆ nodes (Server._get_user_dir srv fs user).1.
Proof.
  unfold Server._get_user_dir. destruct (Os.path_exists fs _); cbn [negb]; [done|].
  destruct (Os.makedirs fs _) as [fs' r] eqn:E.
  apply makedirs_spec in E as (? & ? & _). by destruct r.
Qed.

Lemma upload_keeps srv fs user parts :
  cwd (Server.upload srv fs user parts).1 = cwd fs
  ∧ dirs_kept (nodes fs) (nodes (Server.upload srv fs user parts).1).
Proof.
  unfold Server.upload. destruct (decide _); [by split; [|apply dirs_kept_refl]|].
  destruct (Base64.b64decode _); [|by split; [|apply dirs_kept_refl]].
  pose proof (get_user_dir_grows srv fs user) as [Hc Hs].
  destruct (Server._get_user_dir srv fs user) as [fs1 [d|e]]; cbn in Hc, Hs;
    [|by split; [|apply dirs_kept_subseteq]].
  unfold Os.write_file. destruct (Os.resolve fs1 _) as [p|];
    [|by split; [|apply dirs_kept_subseteq]].
  destruct (nodes fs1 !! p) as [[content|]|] eqn:Hp; cbn;
    (split; [done|]); try (by apply dirs_kept_subseteq);
    (eapply dirs_kept_trans; [by apply dirs_kept_subseteq|]);
    apply dirs_kept_write; congruence.
Qed.

Lemma download_grows srv fs user parts :
  cwd (Server.download srv fs user parts).1 = cwd fs
  ∧ nodes fs ⊆ nodes (Server.download srv fs user parts).1.
Proof.
  unfold Server.download. destruct (decide _); [done|].
  pose proof (get_user_dir_grows srv fs user) as [Hc Hs].
  destruct (Server._get_user_dir srv fs user) as [fs1 [d|e]]; cbn in Hc, Hs; [|done].
  by destruct (Os.read_file _ _) as [|[| |[] ?]].
Qed.

Lemma list_grows srv fs user :
  cwd (Server.list_files srv fs user).1 = cwd fs
  ∧ nodes fs ⊆ nodes (Server.list_files srv fs user).1.
Proof.
  unfold Server.list_files.
  pose proof (get_user_dir_grows srv fs user) as [Hc Hs].
  destruct (Server._get_user_dir srv fs user) as [fs1 [d|e]]; cbn in Hc, Hs; [|done].
  by destruct (Os.listdir _ _).
Qed.

Lemma delete_keeps srv fs user parts :
  cwd (Server.delete srv fs user parts).1 = cwd fs
  ∧ dirs_kept (nodes fs) (nodes (Server.delete srv fs user parts).1).
Proof.
  unfold Server.delete. destruct (decide _); [by split; [|apply dirs_kept_refl]|].
  pose proof (get_user_dir_grows srv fs user) as [Hc Hs].
  destruct (Server._get_user_dir srv fs user) as [fs1 [d|e]]; cbn in Hc, Hs;
    [|by split; [|apply dirs_kept_subseteq]].
  unfold Os.remove, Os.stat. destruct (Os.resolve fs1 _) as [p|[| |[] ?]]; cbn;
    try (by split; [|apply dirs_kept_subseteq]).
  destruct (nodes fs1 !! p) as [[content|]|] eqn:Hp; cbn;
    try (by split; [|apply dirs_kept_subseteq]).
  split; [done|]. eapply dirs_kept_trans; [by apply dirs_kept_subseteq|].
  by eapply dirs_kept_remove.
Qed.

(** X7: no command removes a directory or puts a file in its place, and
    none moves the working directory; a command other than UPLOAD and
    DELETE changes no file either: all it can do is add directories. *)
Theorem storage_only_grows srv fs u text :
  let fs' := (Server.handle_command srv fs u text).1.1 in
  cwd fs' = cwd fs
  ∧ dirs_kept (nodes fs) (nodes fs')
  ∧ (Server.verb text ∉ ["UPLOAD"; "DELETE"] → nodes fs ⊆ nodes fs').
Proof.
  cbn zeta. unfold Server.handle_command, Server.verb, Server.parse.
  assert (cwd fs = cwd fs ∧ dirs_kept (nodes fs) (nodes fs)
          ∧ (Str.upper (Server.item (Str.split 2 (Str.strip text)) 0)
               ∉ ["UPLOAD"; "DELETE"] → nodes fs ⊆ nodes fs)) as Hsame
    by (split_and!; [done|apply dirs_kept_refl|done]).
  destruct (decide (Str.strip text = _)); [done|].
  destruct (decide (_ = [])); [done|].
  destruct (decide _).
  { by destruct (Server.auth _ _ _). }
  destruct u as [user|]; [|done].
  destruct (decide _) as [E|].
  { pose proof (upload_keeps srv fs user (Str.split 2 (Str.strip text))) as [? ?].
    destruct (Server.upload _ _ _ _). split_and!; [done..|].
    intros Hv. exfalso. apply Hv. rewrite E. in_list. }
  destruct (decide _).
  { pose proof (download_grows srv fs user (Str.split 2 (Str.strip text))) as [? ?].
    destruct (Server.download _ _ _ _).
    split_and!; [done|by apply dirs_kept_subseteq|done]. }
  destruct (decide _) as [E|].
  { pose proof (delete_keeps srv fs user (Str.split 2 (Str.strip text))) as [? ?].
    destruct (Server.delete _ _ _ _). split_and!; [done..|].
    intros Hv. exfalso. apply Hv. rewrite E. in_list. }
  destruct (decide _).
  { pose proof (list_grows srv fs user) as [? ?].
    destruct (Server.list_files _ _ _).
    split_and!; [done|by apply dirs_kept_subseteq|done]. }
  done.
Qed.

Lemma storage_only_grows_witness :
  nodes demo_fs
  ⊆ nodes (Server.handle_command demo_server demo_fs (Some "alice") "LIST").1.1.
Proof.
  apply (storage_only_grows demo_server demo_fs (Some "alice") "LIST").
  vm_compute. intros H.
  repeat (apply elem_of_cons in H as [H|H]; [discriminate H|]).
  by apply elem_of_nil in H.
Defined.

(** ** Connections that do not authenticate *)

Lemma handle_command_keeps_user srv fs user text :
  is_Some (Server.handle_command srv fs (Some user) text).1.2.
Proof.
  unfold Server.handle_command.
  destruct (decide (Str.strip text = _)); [by eauto|].
  destruct (decide (_ = [])); [by eauto|].
  destruct (decide _).
  { unfold Server.auth. repeat case_match; simplify_eq/=; by eauto. }
  destruct (decide _); [destruct (Server.upload _ _ _ _); by eauto|].
  destruct (decide _); [destruct (Server.download _ _ _ _); by eauto|].
  destruct (decide _); [destruct (Server.delete _ _ _ _); by eauto|].
  destruct (decide _); [destruct (Server.list_files _ _ _); by eauto|].
  by eauto.
Qed.

Lemma serve_keeps_user srv received :
  ∀ fs user, is_Some (Server.serve srv fs (Some user) received).1.2.
Proof.
  induction received as [|text rest IH]; intros fs user; cbn; [by eauto|].
  destruct (decide _); [by eauto|].
  pose proof (handle_command_keeps_user srv fs user text) as [user' Hu].
  destruct (Server.handle_command srv fs (Some user) text) as [[fs' u'] a].
  cbn in Hu. subst u'. destruct a as [response| |e]; [|apply IH|by eauto].
  specialize (IH fs' user'). by destruct (Server.serve _ _ _ _) as [[? ?] ?].
Qed.

(** One command on a connection that has not authenticated. *)
Lemma handle_command_unauthenticated srv fs text :
  ∃ u' a, Server.handle_command srv fs None text = (fs, u', a)
          ∧ (u' = None →
             a = Nothing ∨ ∃ m, a = Send m ∧ Str.startswith "ERROR " m = true)
          ∧ (users srv = ∅ → u' = None).
Proof.
  unfold Server.handle_command.
  destruct (decide (Str.strip text = _)); [by eauto 10|].
  destruct (decide (_ = [])); [by eauto 10|].
  destruct (decide _); [|by eauto 10].
  unfold Server.auth. destruct (decide _); [by eauto 10|].
  destruct (users srv !! _) as [stored|] eqn:Hu; [|by eauto 10].
  destruct (decide _).
  - eexists _, _. split; [done|]. split; [done|].
    intros Hempty. rewrite Hempty in Hu. by rewrite lookup_empty in Hu.
  - by eauto 10.
Qed.

(** X8: a connection that is still unauthenticated when it ends has
    left the storage as it was and has received nothing but [ERROR]
    lines; with an empty user mapping (what [_load_users] returns when
    [users.json] is missing) every connection is such a one. *)
Theorem unauthenticated_connection_harmless srv fs received :
  let r := Server.handle_client srv fs received in
  (r.1.2 = None →
   r.1.1 = fs ∧ Forall (λ m, Str.startswith "ERROR " m = true) r.2)
  ∧ (users srv = ∅ → r.1.2 = None).
Proof.
  cbn zeta. unfold Server.handle_client.
  induction received as [|text rest IH]; cbn; [done|].
  destruct (decide _); [done|].
  destruct (handle_command_unauthenticated srv fs text) as (u' & a & -> & Ha & Hu).
  destruct u' as [user|].
  - split.
    + pose proof (serve_keeps_user srv rest fs user) as [x Hx]. revert Hx.
      destruct a as [response| |e]; [| |done].
      * destruct (Server.serve srv fs (Some user) rest) as [[? ?] ?]. cbn.
        congruence.
      * cbn. congruence.
    + intros Hempty. by specialize (Hu Hempty).
  - destruct IH as [IH1 IH2].
    destruct (Ha eq_refl) as [->|(m & -> & Hm)].
    + done.
    + destruct (Server.serve srv fs None rest) as [[fs' u'] sent]. cbn in *.
      split; [|done]. intros Hnone. destruct (IH1 Hnone) as [-> Hsent].
      split; [done|]. by apply Forall_cons.
Qed.

Lemma unauthenticated_connection_harmless_witness :
  let r := Server.handle_client demo_server demo_fs
             ["LIST"; "AUTH alice nope"; "DELETE notes.txt"] in
  r.1.1 = demo_fs ∧ Forall (λ m, Str.startswith "ERROR " m = true) r.2.
Proof.
  apply (proj1 (unauthenticated_connection_harmless demo_server demo_fs
                  ["LIST"; "AUTH alice nope"; "DELETE notes.txt"])).
  vm_compute. reflexivity.
Defined.

(** ** A user's own directory *)

Section OwnDirectory.

Variables (srv : FileServer) (fs : filesystem) (A : string) (ps : list string).
Hypothesis HA : is_name A = true.
Hypothesis Hstorage : Os.resolve fs (storage_dir srv) = Ok ps.
Hypothesis Hdir : nodes fs !! ps = Some Dir.
Hypothesis Hnofile : ∀ content, nodes fs !! (A :: ps) ≠ Some (File content).


(** The hypotheses of this section hold again after a change below the
    user's directory. *)
Lemma own_directory_stable m :
  dirs_kept (<[A :: ps := Dir]> (nodes fs)) m →
  Os.resolve (with_nodes fs m) (storage_dir srv) = Ok ps
  ∧ m !! ps = Some Dir
  ∧ (∀ content, m !! (A :: ps) ≠ Some (File content))
  ∧ <[A :: ps := Dir]> m = m.
Proof using Hstorage Hdir.
  intros Hk.
  assert (dirs_kept (nodes fs) m) as Hk'.
  { intros p Hp. apply Hk. destruct (decide (A :: ps = p)) as [<-|].
    - by rewrite lookup_insert_eq.
    - by rewrite lookup_insert_ne. }
  assert (m !! (A :: ps) = Some Dir) as Hu by (apply Hk; by rewrite lookup_insert_eq).
  split_and!.
  - by apply (resolve_kept fs).
  - by apply Hk'.
  - intros content. by rewrite Hu.
  - by apply insert_id.
Qed.

End OwnDirectory.





(** X11: after a DELETE that was answered [OK File deleted], for a file
    name that is a name, LIST on the same connection names the other
    entries of the user's directory and no longer the file deleted. *)
Theorem list_after_delete srv fs A ps text v filename content text' v' args :
  is_name A = true →
  Os.resolve fs (storage_dir srv) = Ok ps → nodes fs !! ps = Some Dir →
  (∀ c, nodes fs !! (A :: ps) ≠ Some (File c)) →
  Server.parse text = [v; filename] → Str.upper v = "DELETE" →
  is_name filename = true →
  nodes fs !! (filename :: A :: ps) = Some (File content) →
  Server.parse text' = v' :: args → Str.upper v' = "LIST" →
  let r := Server.handle_command srv fs (Some A) text in
  r.2 = Send "OK File deleted"
  ∧ ∃ names,
      Server.handle_command srv r.1.1 (Some A) text'
      = (r.1.1, Some A, Send ("OK " +:+ Json.dumps names))
      ∧ ∀ n, n ∈ names ↔ n ≠ filename ∧ is_Some (nodes fs !! (n :: A :: ps)).
Proof.
  intros HA Hst Hdir Hnofile Hp Hv Hf Hown Hp' Hv' r. subst r.
  rewrite (handle_command_verb _ _ _ _ _ "DELETE" Hp) by done.
  repeat (destruct (decide _); [done|]). destruct (decide _); [|done].
  rewrite (delete_own srv fs A ps HA Hst Hdir Hnofile filename) by done.
  rewrite Hown. cbn [fst snd nodes with_nodes]. split; [done|].
  set (m := delete (filename :: A :: ps) (<[A :: ps := Dir]> (nodes fs))).
  change (with_nodes (with_nodes fs _) m) with (with_nodes fs m).
  destruct (own_directory_stable srv fs A ps Hst Hdir m) as (Hst' & Hdir' & Hno' & Hid).
  { apply (dirs_kept_remove _ _ content).
    rewrite lookup_insert_ne by apply entry_not_dir. done. }
  rewrite (handle_command_verb _ _ _ _ _ "LIST" Hp') by done.
  repeat (destruct (decide _); [done|]). destruct (decide _); [|done].
  destruct (list_own srv (with_nodes fs m) A ps HA Hst' Hdir' Hno')
    as (names & Hlist & Hnames).
  cbn [nodes with_nodes] in Hlist, Hnames. rewrite Hid in Hlist.
  change (with_nodes (with_nodes fs m) m) with (with_nodes fs m) in Hlist.
  rewrite Hlist. exists names. split; [done|].
  intros name. rewrite Hnames. subst m.
  destruct (decide (name = filename)) as [->|Hn].
  - rewrite lookup_delete_eq. split; [by intros [? [=]]|by intros [? _]].
  - rewrite lookup_delete_ne by congruence.
    rewrite lookup_insert_ne by apply entry_not_dir. by split; [|intros [_ ?]].
Qed.

Lemma list_after_delete_witness :
  let fs := (Server.handle_command demo_server demo_fs (Some "alice")
               "UPLOAD notes.txt aGVsbG8=").1.1 in
  (Server.handle_command demo_server fs (Some "alice") "DELETE notes.txt").2
  = Send "OK File deleted".
Proof.
  intros fs.
  refine (proj1 (list_after_delete demo_server fs "alice" ["storage"; "srv"]
                   "DELETE notes.txt" "DELETE" "notes.txt" hello
                   "LIST" "LIST" [] _ _ _ _ _ _ _ _ _ _));
    try (vm_compute; reflexivity).
  intros c. vm_compute. discriminate.
Defined.

(** ** Creating the directories *)







(** ** The size of an upload *)

Lemma string_length_app s t :
  String.length (s +:+ t) = String.length s + String.length t.
Proof. induction s as [|a s IH]; [done|]. rewrite app_cons. cbn. by rewrite IH. Qed.

Lemma b64encode_length data :
  String.length (Base64.b64encode data) = 4 * ((length data + 2) / 3).
Proof.
  induction data as [|a|a b|a b c rest IH] using list_ind3; [done..|].
  cbn [Base64.b64encode String.length length]. rewrite IH.
  replace (S (S (S (length rest))) + 2) with ((length rest + 2) + 1 * 3) by lia.
  rewrite Nat.div_add by done. lia.
Qed.

(** X14: the command line of an upload has eight characters, the file
    name, and four characters for every three bytes of the file, the
    last group filled up. *)
Theorem upload_command_length filename file_content :
  String.length (upload_command filename file_content)
  = 8 + String.length filename + 4 * ((length file_content + 2) / 3).
Proof.
  unfold upload_command. rewrite !string_length_app, b64encode_length. cbn. lia.
Qed.

(** X15: the size check of [upload_file] does not keep the command
    within one read of the server: for a file of more than 786432 bytes,
    which the check lets pass up to [MAX_COMMAND_LENGTH] bytes, the
    command is longer than [BUFFER_SIZE]. *)
Theorem upload_command_exceeds_buffer filename file_content :
  (786432 < N.of_nat (length file_content))%N →
  (BUFFER_SIZE < N.of_nat (String.length (upload_command filename file_content)))%N.
Proof.
  intros H.
  assert (String.length (upload_command filename file_content)
          = 8 + String.length filename + 4 * ((length file_content + 2) / 3)) as ->.
  { unfold upload_command. rewrite !string_length_app, b64encode_length. cbn. lia. }
  rewrite !Nat2N.inj_add, Nat2N.inj_mul, Nat2N.inj_div, Nat2N.inj_add.
  change (N.of_nat 2) with 2%N. change (N.of_nat 3) with 3%N.
  change (N.of_nat 4) with 4%N. change BUFFER_SIZE with 1048576%N.
  assert (262145 ≤ (N.of_nat (length file_content) + 2) / 3)%N.
  { apply N.div_le_lower_bound; lia. }
  lia.
Qed.

Lemma upload_command_exceeds_buffer_witness :
  (N.of_nat (length (replicate (2 ^ 20) x00)) <=? MAX_COMMAND_LENGTH)%N = true
  ∧ (BUFFER_SIZE
     < N.of_nat (String.length (upload_command "big.bin" (replicate (2 ^ 20) x00))))%N.
Proof.
  assert (N.of_nat (length (replicate (2 ^ 20) x00)) = 1048576%N) as Hl.
  { rewrite length_replicate, Nat2N.inj_pow. reflexivity. }
  split; [by rewrite Hl|].
  apply upload_command_exceeds_buffer. rewrite Hl. reflexivity.
Defined.

(** ** What [upload_file] sends *)

Lemma rstrip_all_space t : all_space t = true → Str.rstrip t = EmptyString.
Proof.
  induction t as [|a t IH]; [done|]. cbn.
  intros [Ha Ht]%andb_true_iff. by rewrite IH, Ha.
Qed.

Lemma rstrip_app_space s t : all_space t = true → Str.rstrip (s +:+ t) = Str.rstrip s.
Proof.
  intros Ht. induction s as [|a s IH].
  - rewrite app_empty. by apply rstrip_all_space.
  - rewrite app_cons. cbn. by rewrite IH.
Qed.

Lemma lstrip_app s t :
  Str.lstrip (s +:+ t)
  = match Str.lstrip s with
    | EmptyString => Str.lstrip t
    | r => r +:+ t
    end.
Proof.
  induction s as [|a s IH]; [done|]. rewrite app_cons. cbn.
  by destruct (Str.isspace a).
Qed.

(** Whitespace at the end does not count. *)
Lemma strip_trailing s t : all_space t = true → Str.strip (s +:+ t) = Str.strip s.
Proof.
  intros Ht. unfold Str.strip. rewrite lstrip_app.
  destruct (Str.lstrip s) as [|a r].
  - apply all_space_lstrip in Ht. by rewrite Ht.
  - by apply rstrip_app_space.
Qed.

Lemma parse_empty_upload filename :
  is_word filename = true →
  Server.parse (upload_command filename []) = ["UPLOAD"; filename].
Proof.
  intros Hf. unfold Server.parse, upload_command. cbn [Base64.b64encode].
  change ("UPLOAD " +:+ ?x) with ("UPLOAD" +:+ " " +:+ x).
  assert ("UPLOAD" +:+ " " +:+ filename +:+ " " +:+ EmptyString
          = ("UPLOAD" +:+ " " +:+ filename) +:+ " ") as ->
    by (by rewrite !string_app_assoc).
  rewrite strip_trailing by done.
  rewrite strip_between by done.
  rewrite split_word, split_last by done. reflexivity.
Qed.

(** X16: the upload of an empty file is always refused: its payload is
    the empty token, which the stripped command line loses, and the
    server answers [ERROR Invalid upload command] and stores nothing. *)
Theorem empty_upload_refused srv fs user filename :
  is_word filename = true →
  Server.handle_command srv fs (Some user) (upload_command filename [])
  = (fs, Some user, Send "ERROR Invalid upload command").
Proof.
  intros Hf.
  rewrite (handle_command_verb _ _ _ _ _ "UPLOAD" (parse_empty_upload _ Hf)) by done.
  destruct (decide _); [done|]. destruct (decide _); [|done].
  unfold Server.upload. destruct (decide _) as [|Hn]; [done|]. cbn in Hn. lia.
Qed.

Lemma empty_upload_refused_witness :
  Server.handle_command demo_server demo_fs (Some "alice")
    (upload_command "empty.txt" [])
  = (demo_fs, Some "alice", Send "ERROR Invalid upload command").
Proof. apply empty_upload_refused. vm_compute. reflexivity. Defined.

Lemma split_on_no_sep sep s :
  Forall (λ w, Str.contains sep w = false) (Str.split_on sep s).
Proof.
  induction s as [|a s IH]; [by repeat constructor|]. cbn.
  destruct (decide (a = sep)) as [->|Ha]; [by apply Forall_cons|].
  destruct (Str.split_on sep s) as [|w ws].
  - apply Forall_singleton. cbn. by destruct (decide _).
  - apply Forall_cons in IH as [Hw Hws]. apply Forall_cons. split; [|done].
    cbn. by destruct (decide _).
Qed.

Lemma basename_no_sep path : Str.contains Os.sep (basename path) = false.
Proof.
  unfold basename, Os.components.
  pose proof (split_on_no_sep Os.sep path) as H.
  induction (Str.split_on Os.sep path) as [|w [|w' ws] IH]; [done|..].
  - by apply Forall_cons in H as [? _].
  - apply Forall_cons in H as [_ H]. by apply IH.
Qed.

(** X17: when [upload_file] sends a command, the client is
    authenticated, the socket is connected, the local file is a regular
    file of at most [MAX_COMMAND_LENGTH] bytes, and the command is
    [UPLOAD], the last component of the local path (which holds no
    separator), and the encoded content; when that name is one word and
    the file is not empty, the server parses the command into these
    three parts. *)
Theorem upload_file_sends accepts c local filepath net c' ok s command :
  upload_file accepts c local filepath net = (c', ok, Some (s, command)) →
  Client.authenticated c = true
  ∧ Client.connected s = true
  ∧ Str.contains Os.sep (basename filepath) = false
  ∧ ∃ file_content,
      Os.read_file local filepath = Ok file_content
      ∧ (N.of_nat (length file_content) ≤ MAX_COMMAND_LENGTH)%N
      ∧ command = upload_command (basename filepath) file_content
      ∧ (is_word (basename filepath) = true → file_content ≠ [] →
         Server.parse command
         = ["UPLOAD"; basename filepath; Base64.b64encode file_content]).
Proof.
  unfold upload_file.
  destruct (Client.authenticated c) eqn:Hauth; cbn [negb]; [|done].
  destruct (Os.path_exists local filepath); cbn [negb]; [|done].
  destruct (Os.read_file local filepath) as [content|]; [|done].
  destruct (N.ltb_spec MAX_COMMAND_LENGTH (N.of_nat (length content))); [done|].
  destruct (Client._send_command _ _ _ _) as [[c1 [response|e]] on] eqn:Hsend;
    [|done].
  destruct on as [s'|]; [|done]. cbn. intros [= <- <- <- <-].
  split_and!; [done| |apply basename_no_sep|].
  - revert Hsend. unfold Client._send_command.
    destruct (Client._ensure_connected accepts c) as [c2 [[|]|]]; try done.
    destruct (Client.session c2) as [s2|]; [|done].
    destruct (Client.connected s2) eqn:Hc; cbn [negb]; [|done].
    by destruct net; intros [= <- <- <-].
  - exists content. split_and!; [done..|].
    intros Hw Hne. by apply parse_upload_command.
Qed.

Lemma upload_file_sends_witness :
  let local := FS [] (<[["notes.txt"] := File hello]> (<[[] := Dir]> ∅)) in
  let c := (Client.authenticate (λ _, true) (Client.init [("localhost", 8080%N)])
              "alice" "secret123" (Client.Response "OK Authenticated")).1.1 in
  ∃ content,
    Os.read_file local "/notes.txt" = Ok content
    ∧ (N.of_nat (length content) ≤ MAX_COMMAND_LENGTH)%N
    ∧ upload_command "notes.txt" hello = upload_command (basename "/notes.txt") content
    ∧ (is_word (basename "/notes.txt") = true → content ≠ [] →
       Server.parse (upload_command "notes.txt" hello)
       = ["UPLOAD"; basename "/notes.txt"; Base64.b64encode content]).
Proof.
  intros local c.
  apply (upload_file_sends (λ _, true) c local "/notes.txt"
           (Client.Response "OK File uploaded") c true
           (Client.Socket 0 0 true) (upload_command "notes.txt" hello)).
  vm_compute. reflexivity.
Defined.

(** ** What the decoder overlooks *)

Lemma a2b_loop_drop_foreign s :
  ∀ quad_pos leftchar pads out,
  Base64.a2b_loop s quad_pos leftchar pads out
  = Base64.a2b_loop (drop_foreign s) quad_pos leftchar pads out.
Proof.
  induction s as [|c s IH]; intros quad_pos leftchar pads out; [done|].
  cbn [drop_foreign]. unfold significant, Base64.in_alphabet.
  destruct (decide (c = Base64.BASE64_PAD)) as [->|Hc].
  - cbn [Base64.a2b_loop orb bool_decide].
    change (bool_decide (Base64.BASE64_PAD = Base64.BASE64_PAD)) with true.
    rewrite orb_true_r. cbn [Base64.a2b_loop].
    destruct (decide _); [|done]. by repeat (destruct (decide _)).
  - rewrite (bool_decide_eq_false_2 _ Hc), orb_false_r.
    destruct (N.ltb_spec (Base64.table_a2b c) 64) as [Hlt|Hge].
    + cbn [Base64.a2b_loop]. destruct (decide _); [done|].
      destruct (N.leb_spec 64 (Base64.table_a2b c)); [lia|].
      by destruct quad_pos as [|[|[|]]].
    + cbn [Base64.a2b_loop]. destruct (decide _); [done|].
      destruct (N.leb_spec 64 (Base64.table_a2b c)); [|lia]. apply IH.
Qed.

Lemma is_ascii_drop_foreign s :
  Base64.is_ascii s = true → Base64.is_ascii (drop_foreign s) = true.
Proof.
  induction s as [|c s IH]; [done|]. cbn.
  intros [Hc Hs]%andb_true_iff. destruct (significant c); [|by apply IH].
  cbn. by rewrite Hc, IH.
Qed.

(** X18: the UPLOAD branch overlooks every ASCII character of the
    payload that is neither of the base64 alphabet nor the padding
    character (blanks inside the payload, punctuation): the command is
    handled as the upload of the payload without them. *)
Theorem upload_overlooks_foreign srv fs user text v filename payload :
  Server.parse text = [v; filename; payload] →
  Str.upper v = "UPLOAD" →
  Base64.is_ascii payload = true →
  Base64.b64decode payload = Base64.b64decode (drop_foreign payload)
  ∧ Server.handle_command srv fs (Some user) text
    = (let '(fs', a) :=
         Server.upload srv fs user [v; filename; drop_foreign payload] in
       (fs', Some user, a)).
Proof.
  intros Hp Hv Hascii.
  assert (Base64.b64decode payload = Base64.b64decode (drop_foreign payload)) as Hd.
  { unfold Base64.b64decode.
    rewrite Hascii, is_ascii_drop_foreign by done. apply a2b_loop_drop_foreign. }
  split; [done|].
  rewrite (handle_command_verb _ _ _ _ _ "UPLOAD" Hp) by done.
  destruct (decide _); [done|]. destruct (decide _); [|done].
  unfold Server.upload.
  change (Server.item [v; filename; payload] 2) with payload.
  change (Server.item [v; filename; drop_foreign payload] 2)
    with (drop_foreign payload).
  by rewrite Hd.
Qed.

Lemma upload_overlooks_foreign_witness :
  Base64.b64decode "aGVs bG8=" = Ok hello
  ∧ Server.handle_command demo_server demo_fs (Some "alice")
      "UPLOAD notes.txt aGVs bG8="
    = Server.handle_command demo_server demo_fs (Some "alice")
        "UPLOAD notes.txt aGVsbG8=".
Proof.
  destruct (upload_overlooks_foreign demo_server demo_fs "alice"
              "UPLOAD notes.txt aGVs bG8=" "UPLOAD" "notes.txt" "aGVs bG8=")
    as [Hd Hh]; try (vm_compute; reflexivity).
  split.
  - rewrite Hd. vm_compute. reflexivity.
  - rewrite Hh. vm_compute. reflexivity.
Defined.

Lemma a2b_loop_group_app (a b c : byte) rest junk out :
  Base64.a2b_loop (Base64.b64encode (a :: b :: c :: rest) +:+ junk) 0 0 0 out =
  Base64.a2b_loop (Base64.b64encode rest +:+ junk) 0 0 0 (c :: b :: a :: out).
Proof.
  cbn [Base64.b64encode]. rewrite !app_cons.
  change (N.shiftr (Byte.to_N a) 2) with (Sextet.s1 (Byte.to_N a)).
  change (N.lor (N.shiftl (N.land (Byte.to_N a) 3) 4) (N.shiftr (Byte.to_N b) 4))
    with (Sextet.s2 (Byte.to_N a) (Byte.to_N b)).
  change (N.lor (N.shiftl (N.land (Byte.to_N b) 15) 2) (N.shiftr (Byte.to_N c) 6))
    with (Sextet.s3 (Byte.to_N b) (Byte.to_N c)).
  change (N.land (Byte.to_N c) 63) with (Sextet.s4 (Byte.to_N c)).
  pair_facts a b. pair_facts b c. pair_facts c c.
  rewrite !a2b_loop_sextet by assumption.
  rewrite (to_uchar_byte _ a H6), H5, (to_uchar_byte _ b H15), H14,
    (to_uchar_byte _ c H24).
  reflexivity.
Qed.

Lemma a2b_loop_one_app (a : byte) junk out :
  Base64.a2b_loop (Base64.b64encode [a] +:+ junk) 0 0 0 out = Ok (reverse (a :: out)).
Proof.
  cbn [Base64.b64encode]. rewrite !app_cons. pair_facts a x00.
  change (N.shiftr (Byte.to_N a) 2) with (Sextet.s1 (Byte.to_N a)).
  rewrite H1. change (Byte.to_N x00) with 0%N in *.
  rewrite (a2b_loop_sextet _ _ 0) by assumption.
  rewrite (a2b_loop_sextet _ _ 1) by assumption.
  rewrite (to_uchar_byte _ a H6). reflexivity.
Qed.

Lemma a2b_loop_two_app (a b : byte) junk out :
  Base64.a2b_loop (Base64.b64encode [a; b] +:+ junk) 0 0 0 out
  = Ok (reverse (b :: a :: out)).
Proof.
  cbn [Base64.b64encode]. rewrite !app_cons. pair_facts a b. pair_facts b x00.
  change (N.shiftr (Byte.to_N a) 2) with (Sextet.s1 (Byte.to_N a)).
  change (N.lor (N.shiftl (N.land (Byte.to_N a) 3) 4) (N.shiftr (Byte.to_N b) 4))
    with (Sextet.s2 (Byte.to_N a) (Byte.to_N b)).
  rewrite H11. change (Byte.to_N x00) with 0%N in *.
  rewrite (a2b_loop_sextet _ _ 0) by assumption.
  rewrite (a2b_loop_sextet _ _ 1) by assumption.
  rewrite (a2b_loop_sextet _ _ 2) by assumption.
  rewrite (to_uchar_byte _ a H6), H5, (to_uchar_byte _ b H15).
  reflexivity.
Qed.

Lemma is_ascii_app s t :
  Base64.is_ascii (s +:+ t) = Base64.is_ascii s && Base64.is_ascii t.
Proof.
  induction s as [|a s IH]; [done|]. rewrite app_cons. cbn.
  by rewrite IH, andb_assoc.
Qed.

Lemma a2b_loop_stops_at_padding data junk :
  length data mod 3 ≠ 0 →
  ∀ out, Base64.a2b_loop (Base64.b64encode data +:+ junk) 0 0 0 out
         = Ok (reverse out ++ data).
Proof.
  induction data as [|a|a b|a b c rest IH] using list_ind3; intros Hl out.
  - done.
  - rewrite a2b_loop_one_app, reverse_cons. reflexivity.
  - rewrite a2b_loop_two_app, !reverse_cons, <- app_assoc. reflexivity.
  - rewrite a2b_loop_group_app, IH, !reverse_cons, <- !app_assoc; [done|].
    cbn [length] in Hl.
    replace (S (S (S (length rest)))) with (length rest + 1 * 3) in Hl by lia.
    by rewrite Nat.Div0.mod_add in Hl.
Qed.

(** X19: the decoder stops at the padding that completes the last
    group: when the bytes encoded are not a multiple of three, so that
    their encoding ends in padding, whatever ASCII text follows the
    encoding is not read, and the bytes come back as they were. *)
Theorem b64decode_stops_at_padding data junk :
  length data mod 3 ≠ 0 →
  Base64.is_ascii junk = true →
  Base64.b64decode (Base64.b64encode data +:+ junk) = Ok data.
Proof.
  intros Hl Hj. unfold Base64.b64decode.
  rewrite is_ascii_app, Hj, is_ascii_plain by apply plain_b64encode.
  cbn [andb]. by rewrite a2b_loop_stops_at_padding.
Qed.

Lemma b64decode_stops_at_padding_witness :
  Base64.b64decode ("aGVsbG8=" +:+ "AAAA and more") = Ok hello.
Proof.
  apply (b64decode_stops_at_padding hello "AAAA and more").
  - vm_compute. discriminate.
  - vm_compute. reflexivity.
Defined.

(** ** The client's endpoints *)

Lemma connect_keeps_endpoints accepts c :
  in_range c →
  let r := Client._connect_to_next_node accepts c in
  Client.nodes r.1.1 = Client.nodes c ∧ in_range r.1.1
  ∧ ∃ b, r.1.2 = Ok b.
Proof.
  intros Hr. cbn zeta. unfold Client._connect_to_next_node.
  set (c1 := match Client.session c with Some _ => _ | None => c end).
  assert (Client.nodes c1 = Client.nodes c
          ∧ Client.current_node c1 = Client.current_node c)
    as [Hn1 Hc1] by (subst c1; by destruct (Client.session c)).
  unfold in_range in *.
  destruct (connect_loop_spec accepts (length (Client.nodes c1)) c1)
    as (c' & r & tried & -> & Hn & Hcases); [by rewrite Hn1, Hc1|].
  cbn [fst snd]. rewrite Hn, Hn1.
  assert (∀ j, (Client.current_node c1 + j) mod length (Client.nodes c1)
               < length (Client.nodes c)) as Hround.
  { intros j. rewrite Hn1. apply Nat.mod_upper_bound. lia. }
  destruct Hcases as [(k & _ & -> & _ & _ & _ & Hc)|(-> & _ & _ & Hc)];
    rewrite Hc; by eauto.
Qed.

Lemma send_command_keeps_endpoints accepts c command net :
  in_range c →
  let r := Client._send_command accepts c command net in
  Client.nodes r.1.1 = Client.nodes c ∧ in_range r.1.1
  ∧ ∃ response, r.1.2 = Ok response.
Proof.
  intros Hr. cbn zeta. unfold Client._send_command, Client._ensure_connected.
  destruct (Client.session c) as [s|] eqn:Hs.
  - rewrite Hs. destruct (Client.connected s); cbn [negb]; [|by eauto].
    destruct net; by eauto.
  - pose proof (connect_keeps_endpoints accepts c Hr) as (Hn & Hr' & b & Hb).
    destruct (Client._connect_to_next_node accepts c) as [[c1 r] tried].
    cbn [fst snd] in *. subst r. destruct b; [|by eauto].
    destruct (Client.session c1) as [s|]; [|by eauto].
    destruct (Client.connected s); cbn [negb]; [|by eauto].
    destruct net; by eauto.
Qed.

(** X20: the client never changes its list of endpoints, and the index
    of the current endpoint stays within the list, from [__init__] with
    a list that is not empty on through every command sent; so
    [self.nodes[self.current_node]] never fails and [_send_command]
    returns without an exception. *)
Theorem client_keeps_endpoints accepts c nodes command username password
    filename local filepath net :
  (nodes ≠ [] → in_range (Client.init nodes))
  ∧ (in_range c →
     let keeps c' := Client.nodes c' = Client.nodes c ∧ in_range c' in
     keeps (Client._send_command accepts c command net).1.1
     ∧ (∃ response, (Client._send_command accepts c command net).1.2 = Ok response)
     ∧ keeps (Client.authenticate accepts c username password net).1.1
     ∧ keeps (Client.delete_file accepts c filename net).1.1
     ∧ keeps (upload_file accepts c local filepath net).1.1).
Proof.
  split.
  - intros Hne. unfold in_range. cbn. destruct nodes; [done|cbn; lia].
  - intros Hr keeps. subst keeps. cbn beta.
    split_and!.
    + by apply send_command_keeps_endpoints.
    + by apply send_command_keeps_endpoints.
    + by apply send_command_keeps_endpoints.
    + unfold Client.authenticate.
      pose proof (send_command_keeps_endpoints accepts c
                    ("AUTH " +:+ username +:+ " " +:+ password) net Hr)
        as (Hn & Hr' & _).
      destruct (Client._send_command _ _ _ _) as [[c1 [response|e]] on]; [|done].
      by destruct (Client.is_ok response).
    + unfold Client.authenticate.
      pose proof (send_command_keeps_endpoints accepts c
                    ("AUTH " +:+ username +:+ " " +:+ password) net Hr)
        as (Hn & Hr' & _).
      destruct (Client._send_command _ _ _ _) as [[c1 [response|e]] on]; [|done].
      by destruct (Client.is_ok response).
    + unfold Client.delete_file. destruct (Client.authenticated c); [|done].
      pose proof (send_command_keeps_endpoints accepts c
                    ("DELETE " +:+ filename) net Hr) as (Hn & Hr' & _).
      by destruct (Client._send_command _ _ _ _) as [[c1 [response|e]] on].
    + unfold Client.delete_file. destruct (Client.authenticated c); [|done].
      pose proof (send_command_keeps_endpoints accepts c
                    ("DELETE " +:+ filename) net Hr) as (Hn & Hr' & _).
      by destruct (Client._send_command _ _ _ _) as [[c1 [response|e]] on].
    + unfold upload_file. destruct (Client.authenticated c); [|done].
      destruct (Os.path_exists _ _); [|done].
      destruct (Os.read_file _ _) as [content|]; [|done].
      destruct (_ <? _)%N; [done|].
      pose proof (send_command_keeps_endpoints accepts c
                    (upload_command (basename filepath) content) net Hr)
        as (Hn & Hr' & _).
      by destruct (Client._send_command _ _ _ _) as [[c1 [response|e]] on].
    + unfold upload_file. destruct (Client.authenticated c); [|done].
      destruct (Os.path_exists _ _); [|done].
      destruct (Os.read_file _ _) as [content|]; [|done].
      destruct (_ <? _)%N; [done|].
      pose proof (send_command_keeps_endpoints accepts c
                    (upload_command (basename filepath) content) net Hr)
        as (Hn & Hr' & _).
      by destruct (Client._send_command _ _ _ _) as [[c1 [response|e]] on].
Qed.

Lemma client_keeps_endpoints_witness :
  let c := Client.init [("localhost", 8080%N)] in
  in_range (Client._send_command (λ _, true) c "LIST" Client.SendFails).1.1.
Proof.
  intros c.
  destruct (client_keeps_endpoints (λ _, true) c [("localhost", 8080%N)]
              "LIST" "alice" "secret123" "notes.txt" demo_fs "notes.txt"
              Client.SendFails) as [Hinit Hkeeps].
  destruct (Hkeeps (Hinit ltac:(discriminate))) as [[_ H] _]. exact H.
Defined.

(** ** A round in which every endpoint refuses *)

Lemma connect_loop_refused accepts remaining :
  ∀ c, in_range c →
  (∀ i, i < length (Client.nodes c) →
        Client.accepting accepts (Client.nodes c) i = false) →
  let r := Client.connect_loop accepts remaining c in
  r.1.2 = Ok false
  ∧ Client.nodes r.1.1 = Client.nodes c
  ∧ Client.authenticated r.1.1 = Client.authenticated c
  ∧ (remaining ≠ 0 →
     ∃ s, Client.session r.1.1 = Some s ∧ Client.connected s = false).
Proof.
  induction remaining as [|remaining IH]; intros c Hr Hall; cbn zeta; [done|].
  cbn [Client.connect_loop]. unfold in_range in Hr.
  destruct (Client.nodes c !! Client.current_node c) as [node|] eqn:Hnode; cycle 1.
  { apply lookup_ge_None in Hnode. lia. }
  assert (accepts node = false) as ->.
  { specialize (Hall _ Hr). unfold Client.accepting in Hall. by rewrite Hnode in Hall. }
  set (c1 := Client.Build_FileClient _ _ _ _ _).
  destruct (IH c1) as (Hok & Hn & Ha & Hs).
  { unfold in_range. cbn. apply Nat.mod_upper_bound. lia. }
  { done. }
  destruct (Client.connect_loop accepts remaining c1) as [[c' r] tried] eqn:Hloop.
  cbn [fst snd] in *. split_and!; [done..|]. intros _.
  destruct remaining as [|remaining].
  - cbn in Hloop. injection Hloop as <- <- <-. by eexists.
  - by apply Hs.
Qed.

(** X21: when every endpoint refuses, [_connect_to_next_node] leaves
    the socket of its last attempt in [self.session]; the command after
    the failed one then finds a session, tries no endpoint, fails on the
    unconnected socket and is lost, whether or not a server is back; it
    is the third command that connects again. *)
Theorem failed_round_loses_next_command accepts accepts' c command command' net net' :
  Client.nodes c ≠ [] → in_range c → Client.session c = None →
  (∀ i, i < length (Client.nodes c) →
        Client.accepting accepts (Client.nodes c) i = false) →
  let r1 := Client._send_command accepts c command net in
  let r2 := Client._send_command accepts' r1.1.1 command' net' in
  (r1.1.2 = Ok None ∧ r1.2 = None
   ∧ ∃ s, Client.session r1.1.1 = Some s ∧ Client.connected s = false)
  ∧ (r2.1.2 = Ok None ∧ r2.2 = None
     ∧ Client.session r2.1.1 = None
     ∧ Client.created r2.1.1 = Client.created r1.1.1).
Proof.
  intros Hne Hr Hs Hall. cbn zeta.
  unfold Client._send_command at 2 3 4 5.
  unfold Client._send_command, Client._ensure_connected, Client._connect_to_next_node.
  rewrite Hs.
  destruct (connect_loop_refused accepts (length (Client.nodes c)) c Hr Hall)
    as (Hok & _ & _ & Hsock).
  destruct Hsock as (s & Hsess & Hconn); [by destruct (Client.nodes c)|].
  destruct (Client.connect_loop accepts _ c) as [[c1 r] tried].
  cbn [fst snd] in *. subst r. cbn [fst snd].
  split; [by eauto|].
  unfold Client._ensure_connected. rewrite Hsess. cbn [fst snd].
  rewrite Hsess, Hconn. done.
Qed.

Lemma failed_round_loses_next_command_witness :
  let c := Client.init [("localhost", 8080%N)] in
  let r1 := Client._send_command (λ _, false) c "LIST" (Client.Response "OK []") in
  let r2 := Client._send_command (λ _, true) r1.1.1 "LIST" (Client.Response "OK []") in
  r2.1.2 = Ok None ∧ r2.2 = None.
Proof.
  intros c r1 r2.
  destruct (failed_round_loses_next_command (λ _, false) (λ _, true) c "LIST" "LIST"
              (Client.Response "OK []") (Client.Response "OK []"))
    as [_ (H1 & H2 & _)]; try done.
  - unfold in_range. cbn. lia.
  - intros i Hi. unfold Client.accepting. by destruct (_ !! i).
Defined.

(** ** Logging in *)

Lemma send_command_response accepts c command net c1 text on :
  Client._send_command accepts c command net = (c1, Ok (Some text), on) →
  net = Client.Response text
  ∧ ∃ s, on = Some s ∧ Client.connected s = true.
Proof.
  unfold Client._send_command.
  destruct (Client._ensure_connected accepts c) as [c2 [[|]|]]; try done.
  destruct (Client.session c2) as [s|]; [|done].
  destruct (Client.connected s) eqn:Hc; cbn [negb]; [|done].
  destruct net; try done. intros [= <- <- <-]. by eauto.
Qed.

(** X22: [authenticate] sets the flag when the response starts with
    [OK] and never clears it: a login that fails on a client that is
    logged in leaves the flag set.  It returns [True] only when a
    response that starts with [OK] came back on a connected socket. *)
Theorem authenticate_never_clears accepts c username password net :
  let r := Client.authenticate accepts c username password net in
  Client.authenticated r.1.1 = Client.authenticated c || r.1.2
  ∧ (r.1.2 = true →
     ∃ text s, net = Client.Response text ∧ Str.startswith "OK" text = true
               ∧ r.2 = Some s ∧ Client.connected s = true).
Proof.
  cbn zeta. unfold Client.authenticate.
  pose proof (send_command_keeps_flag accepts c
                ("AUTH " +:+ username +:+ " " +:+ password) net) as Hflag.
  destruct (Client._send_command _ _ _ _) as [[c1 [response|e]] on] eqn:Hsend;
    cbn [fst snd] in *.
  - destruct (Client.is_ok response) eqn:Hok; cbn [fst snd].
    + split; [by rewrite orb_true_r|]. intros _.
      destruct response as [text|]; [|done].
      apply send_command_response in Hsend as (-> & s & -> & Hc).
      exists text, s. split_and!; [done| |done..].
      unfold Client.is_ok in Hok. by apply andb_true_iff in Hok as [_ ?].
    + split; [by rewrite orb_false_r|done].
  - split; [by rewrite orb_false_r|done].
Qed.

Lemma authenticate_never_clears_witness :
  let c := (Client.authenticate (λ _, true) (Client.init [("localhost", 8080%N)])
              "alice" "secret123" (Client.Response "OK Authenticated")).1.1 in
  Client.authenticated
    (Client.authenticate (λ _, true) c "bob" "wrong"
       (Client.Response "ERROR Invalid password")).1.1 = true.
Proof.
  intros c.
  rewrite (proj1 (authenticate_never_clears (λ _, true) c "bob" "wrong"
                    (Client.Response "ERROR Invalid password"))).
  vm_compute. reflexivity.
Defined.

Lemma parse_auth_command username password :
  is_word username = true → is_word password = true →
  Server.parse (auth_command username password) = ["AUTH"; username; password].
Proof.
  intros Hu Hp. unfold Server.parse, auth_command.
  change ("AUTH " +:+ ?x) with ("AUTH" +:+ " " +:+ x).
  rewrite <- (string_app_assoc username), <- (string_app_assoc " ").
  rewrite strip_between by done.
  rewrite !string_app_assoc.
  rewrite split_word, split_word, split_last by done. reflexivity.
Qed.

(** X23: for a user name and a password that are one word each, the
    command [authenticate] builds reaches the AUTH branch with exactly
    these two arguments: the server accepts it if and only if the user
    mapping holds the password for the name, and the client that
    receives the response on a connected socket returns [True] in just
    that case; the storage is not touched. *)
Theorem login_agrees srv fs u accepts c s username password :
  is_word username = true → is_word password = true →
  Client.session c = Some s → Client.connected s = true →
  let accepted := bool_decide (users srv !! username = Some password) in
  ∃ reply,
    Server.handle_command srv fs u (auth_command username password)
    = (fs, (if accepted then Some username else u), Send reply)
    ∧ (Client.authenticate accepts c username password (Client.Response reply)).1.2
      = accepted.
Proof.
  intros Hu Hp Hs Hc accepted.
  pose proof (parse_auth_command _ _ Hu Hp) as Hparse.
  assert (∀ reply, (Client.authenticate accepts c username password
                      (Client.Response reply)).1.2 = Client.is_ok (Some reply))
    as Hclient.
  { intros reply. unfold Client.authenticate, Client._send_command,
      Client._ensure_connected. rewrite Hs. cbn [fst snd]. rewrite Hs, Hc.
    cbn [negb]. by destruct (Client.is_ok (Some reply)). }
  rewrite handle_command_parts by (by rewrite Hparse). cbn zeta.
  unfold Server.verb. rewrite Hparse.
  change (Server.item ["AUTH"; username; password] 0) with "AUTH".
  destruct (decide _); [|done]. unfold Server.auth.
  destruct (decide _) as [Hn|_]; [cbn in Hn; lia|].
  change (Server.item ["AUTH"; username; password] 1) with username.
  change (Server.item ["AUTH"; username; password] 2) with password.
  subst accepted.
  destruct (users srv !! username) as [stored|] eqn:Hlook.
  - destruct (decide (stored = password)) as [->|Hne].
    + rewrite bool_decide_eq_true_2 by done. eexists. split; [done|].
      by rewrite Hclient.
    + rewrite bool_decide_eq_false_2 by congruence. eexists. split; [done|].
      by rewrite Hclient.
  - rewrite bool_decide_eq_false_2 by done. eexists. split; [done|].
    by rewrite Hclient.
Qed.

Lemma login_agrees_witness :
  let c := (Client._ensure_connected (λ _, true)
              (Client.init [("localhost", 8080%N)])).1 in
  ∃ reply,
    Server.handle_command demo_server demo_fs None (auth_command "alice" "secret123")
    = (demo_fs, Some "alice", Send reply)
    ∧ (Client.authenticate (λ _, true) c "alice" "secret123"
         (Client.Response reply)).1.2 = true.
Proof.
  intros c.
  apply (login_agrees demo_server demo_fs None (λ _, true) c
           (Client.Socket 0 0 true) "alice" "secret123");
    vm_compute; reflexivity.
Defined.
